(** * The MMTk garbage-collection backend of Ruby (gc/mmtk.c)

    A shallow embedding of the backend's allocation path, size-class
    table, finalizer registry and protocol stubs, followed by the
    properties the backend contract states about them. *)

From Stdlib Require Import ZArith String List Lia.
From stdpp Require Import base gmap list strings.

Local Open Scope Z_scope.

(** ** Machine integers

    [VALUE] is [uintptr_t] and [size_t] is 64 bits wide on the targets the
    backend is built for; both are carried as [Z], and unsigned arithmetic
    wraps modulo [2^64]. *)

Abbreviation VALUE := Z (only parsing).

Definition SIZE_MAX_plus_1 : Z := 2 ^ 64.

Definition size_add (a b : Z) : Z := (a + b) mod SIZE_MAX_plus_1.

(** [sizeof(VALUE)]: the stride of [VALUE *] arithmetic. *)
Definition SIZEOF_VALUE : Z := 8.

Definition MMTK_MIN_OBJ_ALIGN : Z := 8.
Definition MMTK_ALLOCATION_SEMANTICS_DEFAULT : Z := 0.

(** Address of [base[idx]] for [VALUE *base]. *)
Definition elem_addr (base idx : Z) : Z := base + SIZEOF_VALUE * idx.

(** ** External collaborators

    The functions below are declared in gc/gc.h and gc/mmtk.h and defined
    by the runtime and by the MMTk binding.  Their bodies are taken as
    parameters; only their signatures and the parts of the state they can
    reach are fixed here.  [vm] is the state owned by the collaborators
    (the allocator's pools, the runtime's tables).

    - [mmtk_alloc w cache size align offset semantics] returns the start of
      a fresh block and the allocator's next state.
    - [rb_gc_shutdown_call_finalizer_p w h obj] inspects the object (its
      header lives in the heap [h]) and answers whether its cleanup must
      run at shutdown.  It is a query: it changes nothing.
    - [rb_gc_obj_free w h obj] releases what the object owns; it may change
      the runtime's state and the heap.

    None of them can reach the backend's static table, and the candidate
    registry is reached only through the registry's own functions. *)
Class Collaborators := {
  vm : Type;
  mmtk_alloc : vm → Z → Z → Z → Z → Z → Z * vm;
  rb_gc_shutdown_call_finalizer_p : vm → gmap Z Z → VALUE → bool;
  rb_gc_obj_free : vm → gmap Z Z → VALUE → vm * gmap Z Z;
}.

(** ** Backend state *)

(** [static size_t size_pool_sizes[6] = { 40, 80, 160, 320, 640, 0 };] *)
Definition size_pool_sizes_init : list Z := [40; 80; 160; 320; 640; 0].

Section Backend.
Context `{C : Collaborators}.

(** The process-wide state the backend's functions act on:
    - [size_pool_sizes]: the static array of that name;
    - [heap]: memory, one 8-byte word per key (keys are byte addresses);
    - [obj_free_candidates]: the obj-free candidate registry kept by the
      MMTk binding;
    - [obj_free_calls]: the calls made to [rb_gc_obj_free] so far, oldest
      first (a history, written by nothing but those calls);
    - [world]: the collaborators' own state. *)
Record gc_state := GcState {
  size_pool_sizes : list Z;
  heap : gmap Z Z;
  obj_free_candidates : list VALUE;
  obj_free_calls : list VALUE;
  world : vm;
}.

Definition initial_state (h : gmap Z Z) (w : vm) : gc_state :=
  GcState size_pool_sizes_init h [] [] w.

(** ** Control: normal return, [rb_bug], or undefined behaviour

    [rb_bug] prints its message and aborts the process: nothing runs after
    it and no state survives it.  [Undefined] is what C leaves undefined:
    here, a read of a word of memory that is not mapped. *)
Inductive result (A : Type) : Type :=
| Done (a : A) (s : gc_state)
| Fatal (msg : string)
| Undefined.
Global Arguments Done {A} a s.
Global Arguments Fatal {A} msg.
Global Arguments Undefined {A}.

Definition M (A : Type) : Type := gc_state → result A.

Definition ret {A} (a : A) : M A := λ s, Done a s.

Definition bind {A B} (m : M A) (k : A → M B) : M B :=
  λ s, match m s with
       | Done a s' => k a s'
       | Fatal msg => Fatal msg
       | Undefined => Undefined
       end.

Definition rb_bug {A} (msg : string) : M A := λ _, Fatal msg.

Definition skip : M unit := ret tt.

End Backend.

Notation "'let*' x := m 'in' k" := (bind m (λ x, k))
  (at level 10, x name, m at level 100, k at level 200).
Notation "m ;;; k" := (bind m (λ _, k))
  (at level 100, k at level 200, right associativity).

Section Operations.
Context `{C : Collaborators}.

(** *** Primitive effects *)

(** [base[idx] = v] *)
Definition store (base idx : Z) (v : Z) : M unit :=
  λ s, Done tt (GcState (size_pool_sizes s)
                        (<[elem_addr base idx := v]> (heap s))
                        (obj_free_candidates s) (obj_free_calls s) (world s)).

(** [base[idx]] as an rvalue *)
Definition load (base idx : Z) : M Z :=
  λ s, match heap s !! elem_addr base idx with
       | Some v => Done v s
       | None => Undefined
       end.

(** A read of the static table [size_pool_sizes]. *)
Definition get_size_pool_sizes : M (list Z) := λ s, Done (size_pool_sizes s) s.

Definition call_mmtk_alloc (cache size align offset semantics : Z) : M Z :=
  λ s, let '(p, w) := mmtk_alloc (world s) cache size align offset semantics in
       Done p (GcState (size_pool_sizes s) (heap s)
                       (obj_free_candidates s) (obj_free_calls s) w).

Definition call_rb_gc_shutdown_call_finalizer_p (obj : VALUE) : M bool :=
  λ s, Done (rb_gc_shutdown_call_finalizer_p (world s) (heap s) obj) s.

Definition call_rb_gc_obj_free (objspace_ptr : Z) (obj : VALUE) : M unit :=
  λ s, let '(w, h) := rb_gc_obj_free (world s) (heap s) obj in
       Done tt (GcState (size_pool_sizes s) h
                        (obj_free_candidates s) (obj_free_calls s ++ [obj]) w).

(** The candidate registry of the MMTk binding is declared in gc/mmtk.h
    and defined outside the C sources.  It is a flat growable vector,
    appended to at allocation time and fully drained at shutdown. *)

(** Modelled from the spec: [mmtk_add_obj_free_candidate] (body not in the
    C sources) appends one record to the registry. *)
Definition mmtk_add_obj_free_candidate (obj : VALUE) : M unit :=
  λ s, Done tt (GcState (size_pool_sizes s) (heap s)
                        (obj_free_candidates s ++ [obj]) (obj_free_calls s) (world s)).

(** Modelled from the spec: [mmtk_get_all_obj_free_candidates] (body not in
    the C sources) retrieves all still-pending records, oldest first, and
    hands their ownership to the caller: none stays pending in the
    registry. *)
Definition mmtk_get_all_obj_free_candidates : M (list VALUE) :=
  λ s, Done (obj_free_candidates s)
            (GcState (size_pool_sizes s) (heap s) [] (obj_free_calls s) (world s)).

(** Modelled from the spec: [mmtk_free_raw_vec_of_obj_ref] (body not in the
    C sources) gives back the storage of a retrieved vector; the registry
    is not involved. *)
Definition mmtk_free_raw_vec_of_obj_ref (v : list VALUE) : M unit := skip.

(** *** Size-class table *)

(** [size_t *rb_gc_impl_size_pool_sizes(void *objspace_ptr)] *)
Definition rb_gc_impl_size_pool_sizes (objspace_ptr : Z) : M (list Z) :=
  get_size_pool_sizes.

(** *** Object allocation *)

(** The rounding loop of [rb_gc_impl_new_obj]:
[[
    for (int i = 0; i < 5; i++) {
        if (alloc_size == size_pool_sizes[i]) break;
        if (alloc_size < size_pool_sizes[i]) {
            alloc_size = size_pool_sizes[i];
            break;
        }
    }
]]
    [n] counts the iterations still to run ([5 - i]); the result is the
    value of [alloc_size] after the loop. *)
Fixpoint new_obj_round (tbl : list Z) (i n : nat) (alloc_size : Z) : Z :=
  match n with
  | O => alloc_size
  | S n' =>
      if alloc_size =? tbl !!! i then alloc_size
      else if alloc_size <? tbl !!! i then tbl !!! i
      else new_obj_round tbl (S i) n' alloc_size
  end.

(** [VALUE rb_gc_impl_new_obj(void *objspace_ptr, void *cache_ptr,
      VALUE klass, VALUE flags, VALUE v1, VALUE v2, VALUE v3,
      bool wb_protected, size_t alloc_size)] *)
Definition rb_gc_impl_new_obj (objspace_ptr cache_ptr : Z)
    (klass flags v1 v2 v3 : VALUE) (wb_protected : bool) (alloc_size : Z)
    : M VALUE :=
  if 640 <? alloc_size then rb_bug "too big" else
  let* tbl := get_size_pool_sizes in
  let alloc_size := new_obj_round tbl 0 5 alloc_size in
  let* p := call_mmtk_alloc cache_ptr (size_add alloc_size 8)
                            MMTK_MIN_OBJ_ALIGN 0
                            MMTK_ALLOCATION_SEMANTICS_DEFAULT in
  let alloc_obj := elem_addr p 1 in
  store alloc_obj (-1) alloc_size ;;;
  store alloc_obj 0 flags ;;;
  store alloc_obj 1 klass ;;;
  (if 16 <? alloc_size then store alloc_obj 2 v1 else skip) ;;;
  (if 24 <? alloc_size then store alloc_obj 3 v2 else skip) ;;;
  (if 32 <? alloc_size then store alloc_obj 4 v3 else skip) ;;;
  let* needs_free := call_rb_gc_shutdown_call_finalizer_p alloc_obj in
  (if needs_free then mmtk_add_obj_free_candidate alloc_obj else skip) ;;;
  ret alloc_obj.

End Operations.

Section Operations2.
Context `{C : Collaborators}.

(** [size_t rb_gc_impl_obj_slot_size(VALUE obj)] *)
Definition rb_gc_impl_obj_slot_size (obj : VALUE) : M Z :=
  load obj (-1).

(** The search loop of [rb_gc_impl_size_pool_id_for_size]:
[[
    for (int i = 0; i < 5; i++) {
        if (size == size_pool_sizes[i]) return i;
        if (size < size_pool_sizes[i])  return i;
    }
]]
    [Some i] is a [return i] from inside the loop, [None] is the loop
    running to its end. *)
Fixpoint size_pool_id_search (tbl : list Z) (i n : nat) (size : Z) : option nat :=
  match n with
  | O => None
  | S n' =>
      if size =? tbl !!! i then Some i
      else if size <? tbl !!! i then Some i
      else size_pool_id_search tbl (S i) n' size
  end.

(** [size_t rb_gc_impl_size_pool_id_for_size(void *objspace_ptr, size_t size)] *)
Definition rb_gc_impl_size_pool_id_for_size (objspace_ptr : Z) (size : Z) : M Z :=
  let* tbl := get_size_pool_sizes in
  match size_pool_id_search tbl 0 5 size with
  | Some i => ret (Z.of_nat i)
  | None => rb_bug "size too big"
  end.

(** [bool rb_gc_impl_size_allocatable_p(size_t size)] *)
Definition rb_gc_impl_size_allocatable_p (size : Z) : bool :=
  size <=? 640.

(** *** Lifecycle and configuration

    The bodies are placeholders in the source ([// TODO]); they are
    embedded as they stand.  A Ruby hash is carried as the finite map it
    denotes; [rb_hash_new()] is the empty one.  Only the value of the hash
    is carried: the object the runtime creates to hold it is not part of
    this state. *)

Definition Qfalse : VALUE := 0.

Definition rb_hash_new : gmap string VALUE := ∅.

Definition rb_gc_impl_objspace_init (objspace_ptr : Z) : M unit := skip.

Definition rb_gc_impl_objspace_free (objspace_ptr : Z) : M unit := skip.

Definition rb_gc_impl_ractor_cache_free (objspace_ptr cache : Z) : M unit := skip.

Definition rb_gc_impl_set_params (objspace_ptr : Z) : M unit := skip.

Definition rb_gc_impl_init : M unit := skip.

Definition rb_gc_impl_initial_stress_set (flag : VALUE) : M unit := skip.

Definition rb_gc_impl_shutdown_free_objects (objspace_ptr : Z) : M unit := skip.

Definition rb_gc_impl_start (objspace_ptr : Z)
    (full_mark immediate_mark immediate_sweep compact : bool) : M unit := skip.

Definition rb_gc_impl_during_gc_p (objspace_ptr : Z) : M bool := ret false.

Definition rb_gc_impl_prepare_heap (objspace_ptr : Z) : M unit := skip.

Definition rb_gc_impl_gc_enable (objspace_ptr : Z) : M unit := skip.

Definition rb_gc_impl_gc_disable (objspace_ptr : Z) (finish_current_gc : bool)
    : M unit := skip.

Definition rb_gc_impl_gc_enabled_p (objspace_ptr : Z) : M bool := ret true.

Definition rb_gc_impl_stress_set (objspace_ptr : Z) (flag : VALUE) : M unit := skip.

Definition rb_gc_impl_stress_get (objspace_ptr : Z) : M VALUE := ret Qfalse.

(** [VALUE rb_gc_impl_config_get(void *objspace_ptr)] *)
Definition rb_gc_impl_config_get (objspace_ptr : Z) : M (gmap string VALUE) :=
  ret rb_hash_new.

(** [VALUE rb_gc_impl_config_set(void *objspace_ptr, VALUE hash)] *)
Definition rb_gc_impl_config_set (objspace_ptr : Z) (hash : gmap string VALUE)
    : M (gmap string VALUE) :=
  ret hash.

(** *** Entry points with empty bodies: memory accounting, heap walking,
    finalizer copying, event hooks *)

Definition rb_gc_impl_adjust_memory_usage (objspace_ptr diff : Z) : M unit := skip.

Definition rb_gc_impl_each_objects (objspace_ptr callback data : Z) : M unit := skip.

Definition rb_gc_impl_each_object (objspace_ptr func data : Z) : M unit := skip.

Definition rb_gc_impl_copy_finalizer (objspace_ptr : Z) (dest obj : VALUE)
    : M unit := skip.

Definition rb_gc_impl_set_event_hook (objspace_ptr event : Z) : M unit := skip.

Definition rb_gc_impl_copy_attributes (objspace_ptr : Z) (dest obj : VALUE)
    : M unit := skip.

(** *** Marking *)

Definition rb_gc_impl_mark (objspace_ptr : Z) (obj : VALUE) : M unit :=
  rb_bug "unimplemented".

Definition rb_gc_impl_mark_and_move (objspace_ptr : Z) (ptr : Z) : M unit :=
  rb_bug "unimplemented".

Definition rb_gc_impl_mark_and_pin (objspace_ptr : Z) (obj : VALUE) : M unit :=
  rb_bug "unimplemented".

Definition rb_gc_impl_mark_maybe (objspace_ptr : Z) (obj : VALUE) : M unit :=
  rb_bug "unimplemented".

Definition rb_gc_impl_mark_weak (objspace_ptr : Z) (ptr : Z) : M unit :=
  rb_bug "unimplemented".

Definition rb_gc_impl_remove_weak (objspace_ptr : Z) (parent_obj : VALUE) (ptr : Z)
    : M unit :=
  rb_bug "unimplemented".

Definition rb_gc_impl_objspace_mark (objspace_ptr : Z) : M unit :=
  rb_bug "unimplemented".

(** *** Compaction *)

Definition rb_gc_impl_object_moved_p (objspace_ptr : Z) (obj : VALUE) : M bool :=
  rb_bug "unimplemented".

Definition rb_gc_impl_location (objspace_ptr : Z) (value : VALUE) : M VALUE :=
  rb_bug "unimplemented".

(** *** Write barriers

    [void rb_gc_impl_writebarrier(void *objspace_ptr, VALUE a, VALUE b) { }]
    and its two siblings have empty bodies. *)

Definition rb_gc_impl_writebarrier (objspace_ptr : Z) (a b : VALUE) : M unit := skip.

Definition rb_gc_impl_writebarrier_unprotect (objspace_ptr : Z) (obj : VALUE)
    : M unit := skip.

Definition rb_gc_impl_writebarrier_remember (objspace_ptr : Z) (obj : VALUE)
    : M unit := skip.

(** *** Finalizers at shutdown *)

(** The loop of [rb_gc_impl_shutdown_call_finalizer] over the retrieved
    vector, from index [0] to [len - 1]:
[[
    VALUE obj = (VALUE)registered_candidates.ptr[i];
    if (rb_gc_shutdown_call_finalizer_p(obj)) {
        rb_gc_obj_free(objspace_ptr, obj);
    }
]] *)
Fixpoint shutdown_call_finalizer_loop (objspace_ptr : Z) (ptr : list VALUE) : M unit :=
  match ptr with
  | [] => skip
  | obj :: rest =>
      let* eligible := call_rb_gc_shutdown_call_finalizer_p obj in
      (if eligible then call_rb_gc_obj_free objspace_ptr obj else skip) ;;;
      shutdown_call_finalizer_loop objspace_ptr rest
  end.

(** [void rb_gc_impl_shutdown_call_finalizer(void *objspace_ptr)] *)
Definition rb_gc_impl_shutdown_call_finalizer (objspace_ptr : Z) : M unit :=
  let* registered_candidates := mmtk_get_all_obj_free_candidates in
  shutdown_call_finalizer_loop objspace_ptr registered_candidates ;;;
  mmtk_free_raw_vec_of_obj_ref registered_candidates.

End Operations2.

(** ** The backend as a set of entry points

    One constructor per modelled entry point, with its arguments; [run]
    dispatches to the function of that name.  This is the surface the
    runtime drives the backend through. *)

Inductive retval : Type :=
| RVoid
| RValue (v : VALUE)
| RBool (b : bool)
| RSize (n : Z)
| RHash (h : gmap string VALUE)
| RSizes (tbl : list Z).

Inductive gc_call : Type :=
| Call_objspace_init (objspace_ptr : Z)
| Call_objspace_free (objspace_ptr : Z)
| Call_ractor_cache_free (objspace_ptr cache : Z)
| Call_set_params (objspace_ptr : Z)
| Call_init
| Call_initial_stress_set (flag : VALUE)
| Call_size_pool_sizes (objspace_ptr : Z)
| Call_shutdown_free_objects (objspace_ptr : Z)
| Call_start (objspace_ptr : Z) (full_mark immediate_mark immediate_sweep compact : bool)
| Call_during_gc_p (objspace_ptr : Z)
| Call_prepare_heap (objspace_ptr : Z)
| Call_gc_enable (objspace_ptr : Z)
| Call_gc_disable (objspace_ptr : Z) (finish_current_gc : bool)
| Call_gc_enabled_p (objspace_ptr : Z)
| Call_stress_set (objspace_ptr : Z) (flag : VALUE)
| Call_stress_get (objspace_ptr : Z)
| Call_config_get (objspace_ptr : Z)
| Call_config_set (objspace_ptr : Z) (hash : gmap string VALUE)
| Call_new_obj (objspace_ptr cache_ptr : Z) (klass flags v1 v2 v3 : VALUE)
               (wb_protected : bool) (alloc_size : Z)
| Call_obj_slot_size (obj : VALUE)
| Call_size_pool_id_for_size (objspace_ptr : Z) (size : Z)
| Call_size_allocatable_p (size : Z)
| Call_mark (objspace_ptr : Z) (obj : VALUE)
| Call_mark_and_move (objspace_ptr : Z) (ptr : Z)
| Call_mark_and_pin (objspace_ptr : Z) (obj : VALUE)
| Call_mark_maybe (objspace_ptr : Z) (obj : VALUE)
| Call_mark_weak (objspace_ptr : Z) (ptr : Z)
| Call_remove_weak (objspace_ptr : Z) (parent_obj : VALUE) (ptr : Z)
| Call_objspace_mark (objspace_ptr : Z)
| Call_object_moved_p (objspace_ptr : Z) (obj : VALUE)
| Call_location (objspace_ptr : Z) (value : VALUE)
| Call_writebarrier (objspace_ptr : Z) (a b : VALUE)
| Call_writebarrier_unprotect (objspace_ptr : Z) (obj : VALUE)
| Call_writebarrier_remember (objspace_ptr : Z) (obj : VALUE)
| Call_shutdown_call_finalizer (objspace_ptr : Z)
| Call_adjust_memory_usage (objspace_ptr diff : Z)
| Call_each_objects (objspace_ptr callback data : Z)
| Call_each_object (objspace_ptr func data : Z)
| Call_copy_finalizer (objspace_ptr : Z) (dest obj : VALUE)
| Call_set_event_hook (objspace_ptr event : Z)
| Call_copy_attributes (objspace_ptr : Z) (dest obj : VALUE).

Section Dispatch.
Context `{C : Collaborators}.

Definition returning {A} (f : A → retval) (m : M A) : M retval :=
  let* a := m in ret (f a).

Definition void (m : M unit) : M retval := returning (λ _, RVoid) m.

Definition run (c : gc_call) : M retval :=
  match c with
  | Call_objspace_init o => void (rb_gc_impl_objspace_init o)
  | Call_objspace_free o => void (rb_gc_impl_objspace_free o)
  | Call_ractor_cache_free o cache => void (rb_gc_impl_ractor_cache_free o cache)
  | Call_set_params o => void (rb_gc_impl_set_params o)
  | Call_init => void rb_gc_impl_init
  | Call_initial_stress_set flag => void (rb_gc_impl_initial_stress_set flag)
  | Call_size_pool_sizes o => returning RSizes (rb_gc_impl_size_pool_sizes o)
  | Call_shutdown_free_objects o => void (rb_gc_impl_shutdown_free_objects o)
  | Call_start o fm im isw cp => void (rb_gc_impl_start o fm im isw cp)
  | Call_during_gc_p o => returning RBool (rb_gc_impl_during_gc_p o)
  | Call_prepare_heap o => void (rb_gc_impl_prepare_heap o)
  | Call_gc_enable o => void (rb_gc_impl_gc_enable o)
  | Call_gc_disable o f => void (rb_gc_impl_gc_disable o f)
  | Call_gc_enabled_p o => returning RBool (rb_gc_impl_gc_enabled_p o)
  | Call_stress_set o flag => void (rb_gc_impl_stress_set o flag)
  | Call_stress_get o => returning RValue (rb_gc_impl_stress_get o)
  | Call_config_get o => returning RHash (rb_gc_impl_config_get o)
  | Call_config_set o hash => returning RHash (rb_gc_impl_config_set o hash)
  | Call_new_obj o cache klass flags v1 v2 v3 wb size =>
      returning RValue (rb_gc_impl_new_obj o cache klass flags v1 v2 v3 wb size)
  | Call_obj_slot_size obj => returning RSize (rb_gc_impl_obj_slot_size obj)
  | Call_size_pool_id_for_size o size =>
      returning RSize (rb_gc_impl_size_pool_id_for_size o size)
  | Call_size_allocatable_p size => ret (RBool (rb_gc_impl_size_allocatable_p size))
  | Call_mark o obj => void (rb_gc_impl_mark o obj)
  | Call_mark_and_move o ptr => void (rb_gc_impl_mark_and_move o ptr)
  | Call_mark_and_pin o obj => void (rb_gc_impl_mark_and_pin o obj)
  | Call_mark_maybe o obj => void (rb_gc_impl_mark_maybe o obj)
  | Call_mark_weak o ptr => void (rb_gc_impl_mark_weak o ptr)
  | Call_remove_weak o parent ptr => void (rb_gc_impl_remove_weak o parent ptr)
  | Call_objspace_mark o => void (rb_gc_impl_objspace_mark o)
  | Call_object_moved_p o obj => returning RBool (rb_gc_impl_object_moved_p o obj)
  | Call_location o value => returning RValue (rb_gc_impl_location o value)
  | Call_writebarrier o a b => void (rb_gc_impl_writebarrier o a b)
  | Call_writebarrier_unprotect o obj => void (rb_gc_impl_writebarrier_unprotect o obj)
  | Call_writebarrier_remember o obj => void (rb_gc_impl_writebarrier_remember o obj)
  | Call_shutdown_call_finalizer o => void (rb_gc_impl_shutdown_call_finalizer o)
  | Call_adjust_memory_usage o diff => void (rb_gc_impl_adjust_memory_usage o diff)
  | Call_each_objects o callback data => void (rb_gc_impl_each_objects o callback data)
  | Call_each_object o func data => void (rb_gc_impl_each_object o func data)
  | Call_copy_finalizer o dest obj => void (rb_gc_impl_copy_finalizer o dest obj)
  | Call_set_event_hook o event => void (rb_gc_impl_set_event_hook o event)
  | Call_copy_attributes o dest obj => void (rb_gc_impl_copy_attributes o dest obj)
  end.

(** The states the backend can be in: the initial one (whatever memory and
    collaborator state the process starts with), and any state a returning
    call leaves behind. *)
Inductive reachable : gc_state → Prop :=
| reachable_init (h : gmap Z Z) (w : vm) : reachable (initial_state h w)
| reachable_call (c : gc_call) (s s' : gc_state) (v : retval) :
    reachable s → run c s = Done v s' → reachable s'.

End Dispatch.

(** ** A concrete set of collaborators

    Used to run the backend on concrete inputs.  The allocator is a bump
    pointer ([vm] is the next free address).  An object needs its cleanup
    run at shutdown when the type bits of its flags word say [T_DATA] or
    [T_FILE].  Freeing an object leaves memory as it is. *)
Module Sample.

Definition T_MASK : Z := 0x1f.
Definition T_STRING : Z := 0x05.
Definition T_FILE : Z := 0x0b.
Definition T_DATA : Z := 0x0c.

Definition bump_alloc (w cache size align offset semantics : Z) : Z * Z :=
  (w, w + size).

Definition needs_cleanup (w : Z) (h : gmap Z Z) (obj : VALUE) : bool :=
  match h !! obj with
  | Some flags =>
      let t := Z.land flags T_MASK in (t =? T_DATA) || (t =? T_FILE)
  | None => false
  end.

Definition obj_free (w : Z) (h : gmap Z Z) (obj : VALUE) : Z * gmap Z Z := (w, h).

#[export] Instance collaborators : Collaborators :=
  {| vm := Z;
     mmtk_alloc := bump_alloc;
     rb_gc_shutdown_call_finalizer_p := needs_cleanup;
     rb_gc_obj_free := obj_free |}.

(** A fresh process: empty memory, allocator starting at address [4096]. *)
Definition boot : gc_state := initial_state ∅ 4096.

End Sample.

(** * Properties *)

(** ** Vocabulary of the statements *)

Section Vocabulary.
Context `{C : Collaborators}.

(** The static table still holds the values it was initialised with. *)
Definition table_ok (s : gc_state) : Prop :=
  size_pool_sizes s = size_pool_sizes_init.

(** The finite size classes of a table: the five entries the loops scan.
    The sixth entry is the terminal sentinel. *)
Definition finite_classes (tbl : list Z) : list Z := take 5 tbl.

(** [c] is the smallest finite class of [tbl] that is at least [size]. *)
Definition smallest_class_geq (tbl : list Z) (size c : Z) : Prop :=
  c ∈ finite_classes tbl ∧ size ≤ c ∧
  ∀ e, e ∈ finite_classes tbl → size ≤ e → c ≤ e.

(** Memory after the header writes of [rb_gc_impl_new_obj] for an object at
    [obj] with committed size [c]. *)
Definition header_written (h : gmap Z Z) (obj c flags klass v1 v2 v3 : Z)
    : gmap Z Z :=
  let h := <[elem_addr obj (-1) := c]> h in
  let h := <[elem_addr obj 0 := flags]> h in
  let h := <[elem_addr obj 1 := klass]> h in
  let h := if 16 <? c then <[elem_addr obj 2 := v1]> h else h in
  let h := if 24 <? c then <[elem_addr obj 3 := v2]> h else h in
  if 32 <? c then <[elem_addr obj 4 := v3]> h else h.

(** The allocation is "not write-barrier-protected". *)
Definition not_wb_protected (wb_protected : bool) : Prop := wb_protected = false.

(** The state a computation leaves behind when it returns. *)
Definition after {A} (m : M A) (s : gc_state) : gc_state :=
  match m s with
  | Done _ s' => s'
  | _ => s
  end.

(** The state of the drain started in [s] once the candidates have been
    retrieved and the first [i] of them have had their turn. *)
Definition drain_prefix (o : Z) (s : gc_state) (i : nat) : gc_state :=
  after (let* registered_candidates := mmtk_get_all_obj_free_candidates in
         shutdown_call_finalizer_loop o (take i registered_candidates)) s.

(** The addresses of the six words [rb_gc_impl_new_obj] may write for an
    object at [obj]: [obj[-1]] to [obj[4]]. *)
Definition header_words (obj : Z) : list Z :=
  [elem_addr obj (-1); elem_addr obj 0; elem_addr obj 1;
   elem_addr obj 2; elem_addr obj 3; elem_addr obj 4].

(** The state [s] with the candidate registry emptied. *)
Definition registry_taken (s : gc_state) : gc_state :=
  GcState (size_pool_sizes s) (heap s) [] (obj_free_calls s) (world s).

(** The two entry points that change the state as it is modelled here: the
    allocator and the shutdown drain. *)
Definition is_alloc_or_drain (c : gc_call) : bool :=
  match c with
  | Call_new_obj _ _ _ _ _ _ _ _ _ => true
  | Call_shutdown_call_finalizer _ => true
  | _ => false
  end.

Definition is_drain (c : gc_call) : bool :=
  match c with
  | Call_shutdown_call_finalizer _ => true
  | _ => false
  end.

(** Freeing one object does not change the answer of
    [rb_gc_shutdown_call_finalizer_p] for any object. *)
Definition finalizer_p_stable : Prop :=
  ∀ (w : vm) (h : gmap Z Z) (x y : VALUE),
    rb_gc_shutdown_call_finalizer_p
      (fst (rb_gc_obj_free w h x)) (snd (rb_gc_obj_free w h x)) y
    = rb_gc_shutdown_call_finalizer_p w h y.

(** The cleanup of a list of records as the contract words it, stated
    without the backend's loop.  The records are taken oldest first.  A
    record for which [rb_gc_shutdown_call_finalizer_p] holds when its turn
    comes has [rb_gc_obj_free] applied to it, once; a record for which it
    does not hold is passed over.  The result is the collaborators' state
    and the memory after the last record, and the records that were
    cleaned up, in order. *)
Fixpoint cleanup_in_turn (w : vm) (h : gmap Z Z) (records : list VALUE)
    : vm * gmap Z Z * list VALUE :=
  match records with
  | [] => (w, h, [])
  | obj :: rest =>
      if rb_gc_shutdown_call_finalizer_p w h obj then
        let '(w1, h1) := rb_gc_obj_free w h obj in
        let '(w2, h2, freed) := cleanup_in_turn w1 h1 rest in
        (w2, h2, obj :: freed)
      else cleanup_in_turn w h rest
  end.

(** [rb_gc_obj_free] applied to each object of a list, in order, with no
    test in between. *)
Fixpoint free_each (w : vm) (h : gmap Z Z) (objs : list VALUE) : vm * gmap Z Z :=
  match objs with
  | [] => (w, h)
  | obj :: rest =>
      let '(w1, h1) := rb_gc_obj_free w h obj in free_each w1 h1 rest
  end.

End Vocabulary.

(** The sample process after one allocation of 100 bytes. *)
Definition one_object : gc_state :=
  after (rb_gc_impl_new_obj 0 0 7 Sample.T_DATA 1 2 3 true 100) Sample.boot.

(** The sample process after a second allocation, of 30 bytes. *)
Definition two_objects : gc_state :=
  after (rb_gc_impl_new_obj 0 0 9 Sample.T_STRING 4 5 6 false 30) one_object.

(** A sample state whose registry holds a reference to memory that was
    never written: no type bits, so no cleanup is due for it. *)
Definition stale_candidate : gc_state :=
  @GcState Sample.collaborators size_pool_sizes_init ∅ [4104] [] 4096.

(** ** Collaborators whose cleanup leaves a trace

    As [Sample], with a collaborator state that pairs the allocator's bump
    pointer with the number of objects freed so far. *)
Module Counting.

Definition bump_alloc (w : Z * Z) (cache size align offset semantics : Z)
    : Z * (Z * Z) :=
  (w.1, (w.1 + size, w.2)).

Definition needs_cleanup (w : Z * Z) (h : gmap Z Z) (obj : VALUE) : bool :=
  Sample.needs_cleanup w.1 h obj.

(** Freeing counts the object and leaves memory as it is. *)
Definition obj_free (w : Z * Z) (h : gmap Z Z) (obj : VALUE)
    : (Z * Z) * gmap Z Z :=
  ((w.1, w.2 + 1), h).

#[export] Instance collaborators : Collaborators :=
  {| vm := Z * Z;
     mmtk_alloc := bump_alloc;
     rb_gc_shutdown_call_finalizer_p := needs_cleanup;
     rb_gc_obj_free := obj_free |}.

(** Freeing counts the object and clears its flags word, so that the
    object is no longer due for cleanup. *)
Definition retiring_obj_free (w : Z * Z) (h : gmap Z Z) (obj : VALUE)
    : (Z * Z) * gmap Z Z :=
  ((w.1, w.2 + 1), <[obj := 0]> h).

Definition retiring : Collaborators :=
  {| vm := Z * Z;
     mmtk_alloc := bump_alloc;
     rb_gc_shutdown_call_finalizer_p := needs_cleanup;
     rb_gc_obj_free := retiring_obj_free |}.

Definition boot : gc_state := initial_state ∅ (4096, 0).

(** A data object, a string and a file object, allocated in that order. *)
Definition three_allocations : gc_state :=
  after (rb_gc_impl_new_obj 0 0 7 Sample.T_DATA 1 2 3 true 100 ;;;
         rb_gc_impl_new_obj 0 0 8 Sample.T_STRING 4 5 6 false 30 ;;;
         rb_gc_impl_new_obj 0 0 9 Sample.T_FILE 7 8 9 true 200) boot.

(** One data object at [4104], registered twice, under the retiring
    cleanup. *)
Definition registered_twice : @gc_state retiring :=
  @GcState retiring size_pool_sizes_init {[ 4104 := Sample.T_DATA ]}
    [4104; 4104] [] (4152, 0).

End Counting.

(** ** Auxiliary facts *)

Ltac split_cmp :=
  repeat match goal with
         | |- context [?a =? ?b] => destruct (Z.eqb_spec a b)
         | |- context [?a <? ?b] => destruct (Z.ltb_spec a b)
         | |- context [?a <=? ?b] => destruct (Z.leb_spec a b)
         end.

Lemma new_obj_round_init (size : Z) :
  size ≤ 640 →
  new_obj_round size_pool_sizes_init 0 5 size =
    if size <=? 40 then 40 else if size <=? 80 then 80
    else if size <=? 160 then 160 else if size <=? 320 then 320 else 640.
Proof.
  intros Hs. cbn. split_cmp; lia.
Qed.

Lemma new_obj_round_smallest (size : Z) :
  size ≤ 640 →
  smallest_class_geq size_pool_sizes_init size
    (new_obj_round size_pool_sizes_init 0 5 size).
Proof.
  intros Hs. rewrite (new_obj_round_init _ Hs).
  unfold smallest_class_geq, finite_classes, size_pool_sizes_init. cbn [take].
  split; [|split].
  - rewrite !elem_of_cons. split_cmp; tauto.
  - split_cmp; lia.
  - intros e He Hle.
    rewrite !elem_of_cons, elem_of_nil in He.
    split_cmp; lia.
Qed.

Lemma new_obj_round_at_least_40 (size : Z) :
  size ≤ 640 → 40 ≤ new_obj_round size_pool_sizes_init 0 5 size.
Proof.
  intros Hs. rewrite (new_obj_round_init _ Hs). split_cmp; lia.
Qed.

Lemma size_pool_id_search_init (size : Z) :
  size_pool_id_search size_pool_sizes_init 0 5 size =
    if size <=? 40 then Some 0%nat else if size <=? 80 then Some 1%nat
    else if size <=? 160 then Some 2%nat else if size <=? 320 then Some 3%nat
    else if size <=? 640 then Some 4%nat else None.
Proof.
  cbn. split_cmp; try reflexivity; lia.
Qed.

Section AllocationFacts.
Context `{C : Collaborators}.

(** What a non-fatal call of [rb_gc_impl_new_obj] returns and leaves
    behind, in one equation. *)
Lemma new_obj_done (o cache klass flags v1 v2 v3 : Z) (wb : bool) (size : Z)
    (s : gc_state) (c p : Z) (w : vm) :
  size ≤ 640 →
  new_obj_round (size_pool_sizes s) 0 5 size = c →
  mmtk_alloc (world s) cache (size_add c 8) MMTK_MIN_OBJ_ALIGN 0
             MMTK_ALLOCATION_SEMANTICS_DEFAULT = (p, w) →
  let obj := elem_addr p 1 in
  let h := header_written (heap s) obj c flags klass v1 v2 v3 in
  rb_gc_impl_new_obj o cache klass flags v1 v2 v3 wb size s =
    Done obj
      (GcState (size_pool_sizes s) h
         (obj_free_candidates s ++
            if rb_gc_shutdown_call_finalizer_p w h obj then [obj] else [])
         (obj_free_calls s) w).
Proof.
  intros Hs Hc Halloc obj h. subst h obj.
  unfold rb_gc_impl_new_obj, header_written.
  destruct (Z.ltb_spec 640 size) as [?|_]; [lia|].
  unfold bind, get_size_pool_sizes, call_mmtk_alloc. rewrite Hc, Halloc.
  unfold store at 1 2 3. cbn [size_pool_sizes heap obj_free_candidates
                                obj_free_calls world].
  destruct (16 <? c), (24 <? c), (32 <? c);
    cbn [store skip ret size_pool_sizes heap obj_free_candidates
           obj_free_calls world];
    unfold call_rb_gc_shutdown_call_finalizer_p;
    cbn [size_pool_sizes heap obj_free_candidates obj_free_calls world];
    match goal with
    | |- context [rb_gc_shutdown_call_finalizer_p ?w ?h ?x] =>
        destruct (rb_gc_shutdown_call_finalizer_p w h x)
    end;
    cbn; rewrite ?app_nil_r; reflexivity.
Qed.

Lemma new_obj_too_big (o cache klass flags v1 v2 v3 : Z) (wb : bool) (size : Z)
    (s : gc_state) :
  640 < size →
  rb_gc_impl_new_obj o cache klass flags v1 v2 v3 wb size s = Fatal "too big" ∧
  ∀ obj s', rb_gc_impl_new_obj o cache klass flags v1 v2 v3 wb size s ≠ Done obj s'.
Proof.
  intros Hs.
  assert (rb_gc_impl_new_obj o cache klass flags v1 v2 v3 wb size s
          = Fatal "too big") as Heq.
  { unfold rb_gc_impl_new_obj. destruct (Z.ltb_spec 640 size); [|lia].
    reflexivity. }
  split; [exact Heq|]. intros obj s'. rewrite Heq. discriminate.
Qed.

Lemma elem_addr_inj (base i j : Z) : elem_addr base i = elem_addr base j → i = j.
Proof. unfold elem_addr, SIZEOF_VALUE. lia. Qed.

Lemma elem_addr_elem_addr (p i j : Z) :
  elem_addr (elem_addr p i) j = elem_addr p (i + j).
Proof. unfold elem_addr, SIZEOF_VALUE. lia. Qed.

Lemma header_written_lookup (h : gmap Z Z) (obj c flags klass v1 v2 v3 : Z) :
  32 < c →
  let h' := header_written h obj c flags klass v1 v2 v3 in
  h' !! elem_addr obj (-1) = Some c ∧
  h' !! elem_addr obj 0 = Some flags ∧
  h' !! elem_addr obj 1 = Some klass ∧
  h' !! elem_addr obj 2 = Some v1 ∧
  h' !! elem_addr obj 3 = Some v2 ∧
  h' !! elem_addr obj 4 = Some v3.
Proof.
  intros Hc. unfold header_written.
  destruct (Z.ltb_spec 16 c); [|lia].
  destruct (Z.ltb_spec 24 c); [|lia].
  destruct (Z.ltb_spec 32 c); [|lia].
  repeat split;
    rewrite ?lookup_insert_ne by (intros E; apply elem_addr_inj in E; lia);
    apply lookup_insert_eq.
Qed.

(** With the table intact, an allocation of at most 640 bytes returns, and
    what it returns is known. *)
Lemma new_obj_table_ok (o cache klass flags v1 v2 v3 : Z) (wb : bool) (size : Z)
    (s : gc_state) :
  table_ok s → size ≤ 640 →
  ∃ c p w,
    c = new_obj_round size_pool_sizes_init 0 5 size ∧ 40 ≤ c ≤ 640 ∧
    mmtk_alloc (world s) cache (c + 8) MMTK_MIN_OBJ_ALIGN 0
               MMTK_ALLOCATION_SEMANTICS_DEFAULT = (p, w) ∧
    rb_gc_impl_new_obj o cache klass flags v1 v2 v3 wb size s =
      Done (elem_addr p 1)
        (GcState size_pool_sizes_init
           (header_written (heap s) (elem_addr p 1) c flags klass v1 v2 v3)
           (obj_free_candidates s ++
              if rb_gc_shutdown_call_finalizer_p w
                   (header_written (heap s) (elem_addr p 1) c flags klass v1 v2 v3)
                   (elem_addr p 1)
              then [elem_addr p 1] else [])
           (obj_free_calls s) w).
Proof.
  intros Htbl Hs.
  pose proof (new_obj_round_at_least_40 size Hs) as H40.
  assert (new_obj_round size_pool_sizes_init 0 5 size ≤ 640) as H640.
  { rewrite (new_obj_round_init _ Hs). split_cmp; lia. }
  set (c := new_obj_round size_pool_sizes_init 0 5 size) in *.
  assert (size_add c 8 = c + 8) as Hadd.
  { unfold size_add, SIZE_MAX_plus_1. apply Z.mod_small. lia. }
  destruct (mmtk_alloc (world s) cache (c + 8) MMTK_MIN_OBJ_ALIGN 0
              MMTK_ALLOCATION_SEMANTICS_DEFAULT) as [p w] eqn:Halloc.
  assert (new_obj_round (size_pool_sizes s) 0 5 size = c) as Hc
    by (rewrite Htbl; reflexivity).
  pose proof Halloc as Halloc'. rewrite <- Hadd in Halloc'.
  pose proof (new_obj_done o cache klass flags v1 v2 v3 wb size s c p w
                Hs Hc Halloc') as Heq.
  cbv zeta in Heq. rewrite Htbl in Heq.
  exists c, p, w. repeat split; try assumption; lia.
Qed.

Lemma size_pool_id_for_size_table_ok (o size : Z) (s : gc_state) :
  table_ok s →
  rb_gc_impl_size_pool_id_for_size o size s =
    match size_pool_id_search size_pool_sizes_init 0 5 size with
    | Some i => Done (Z.of_nat i) s
    | None => Fatal "size too big"
    end.
Proof.
  intros Htbl. unfold rb_gc_impl_size_pool_id_for_size, bind, get_size_pool_sizes.
  rewrite Htbl. destruct (size_pool_id_search _ _ _ _); reflexivity.
Qed.

End AllocationFacts.

(** ** Allocation and size classes *)

Section AllocationClaims.
Context `{C : Collaborators}.

(** C1.  For every requested size [size <= 640], with the table holding its
    initial values, [rb_gc_impl_new_obj] returns an object whose committed
    slot size is the smallest of the entries 40, 80, 160, 320, 640 that is
    at least [size]: that class plus the 8-byte size word is what it asks
    the allocator for, and [rb_gc_impl_obj_slot_size] of the returned
    reference gives back exactly that class. *)
Theorem new_obj_commits_smallest_class
    (o cache klass flags v1 v2 v3 : Z) (wb : bool) (size : Z) (s : gc_state) :
  table_ok s → size ≤ 640 →
  ∃ obj s' c,
    rb_gc_impl_new_obj o cache klass flags v1 v2 v3 wb size s = Done obj s' ∧
    smallest_class_geq size_pool_sizes_init size c ∧
    mmtk_alloc (world s) cache (c + 8) MMTK_MIN_OBJ_ALIGN 0
               MMTK_ALLOCATION_SEMANTICS_DEFAULT = (elem_addr obj (-1), world s') ∧
    rb_gc_impl_obj_slot_size obj s' = Done c s'.
Proof.
  intros Htbl Hs.
  destruct (new_obj_table_ok o cache klass flags v1 v2 v3 wb size s Htbl Hs)
    as (c & p & w & -> & Hrange & Halloc & Heq).
  eexists _, _, _. split; [exact Heq|].
  split; [exact (new_obj_round_smallest size Hs)|]. split.
  - cbn [world]. rewrite Halloc, elem_addr_elem_addr.
    replace (elem_addr p (1 + -1)) with p by (unfold elem_addr; lia).
    reflexivity.
  - unfold rb_gc_impl_obj_slot_size, load. cbn [heap].
    edestruct header_written_lookup as (-> & _); [|reflexivity]. lia.
Qed.

(** C2.  For every requested size above 640, [rb_gc_impl_new_obj] ends in
    [rb_bug("too big")]: it returns no object reference, whatever the
    other arguments and the state. *)
Theorem new_obj_too_big_fatal
    (o cache klass flags v1 v2 v3 : Z) (wb : bool) (size : Z) (s : gc_state) :
  640 < size →
  rb_gc_impl_new_obj o cache klass flags v1 v2 v3 wb size s = Fatal "too big" ∧
  ∀ obj s', rb_gc_impl_new_obj o cache klass flags v1 v2 v3 wb size s ≠ Done obj s'.
Proof.
  exact (new_obj_too_big o cache klass flags v1 v2 v3 wb size s).
Qed.

(** C9.  Every allocation that returns (requested size at most 640, table
    intact) commits a slot of at least 40 bytes, so the three guards
    [alloc_size > 16], [> 24], [> 32] all hold, and the object carries the
    size word at word offset -1, the flags and class words at offsets 0 and
    1, and all three inline words [v1], [v2], [v3] at offsets 2, 3, 4,
    whatever size was requested.  The words written lie inside the block
    of [c + 8] bytes that was requested from the allocator. *)
Theorem new_obj_writes_whole_header
    (o cache klass flags v1 v2 v3 : Z) (wb : bool) (size : Z) (s : gc_state) :
  table_ok s → size ≤ 640 →
  ∃ obj s' c,
    rb_gc_impl_new_obj o cache klass flags v1 v2 v3 wb size s = Done obj s' ∧
    40 ≤ c ∧
    ((16 <? c) = true ∧ (24 <? c) = true ∧ (32 <? c) = true) ∧
    heap s' !! elem_addr obj (-1) = Some c ∧
    heap s' !! elem_addr obj 0 = Some flags ∧
    heap s' !! elem_addr obj 1 = Some klass ∧
    heap s' !! elem_addr obj 2 = Some v1 ∧
    heap s' !! elem_addr obj 3 = Some v2 ∧
    heap s' !! elem_addr obj 4 = Some v3 ∧
    elem_addr obj 4 + SIZEOF_VALUE ≤ elem_addr obj (-1) + (c + 8).
Proof.
  intros Htbl Hs.
  destruct (new_obj_table_ok o cache klass flags v1 v2 v3 wb size s Htbl Hs)
    as (c & p & w & Hc & Hrange & Halloc & Heq).
  eexists (elem_addr p 1), _, c. split; [exact Heq|]. cbn [heap].
  split; [lia|]. split.
  { repeat split; apply Z.ltb_lt; lia. }
  pose proof (header_written_lookup (heap s) (elem_addr p 1) c flags klass
                v1 v2 v3 ltac:(lia)) as Hl.
  cbv zeta in Hl. destruct Hl as (? & ? & ? & ? & ? & ?).
  repeat (split; [assumption|]).
  unfold elem_addr, SIZEOF_VALUE. lia.
Qed.

(** C6.  Round trip: for an object returned by [rb_gc_impl_new_obj] (table
    intact), with [c] the size class the allocation committed,
    [rb_gc_impl_obj_slot_size] reads back [c], so feeding the slot size to
    [rb_gc_impl_size_pool_id_for_size] gives the same index as feeding it
    [c]; that index is the position of [c] in the table.  And
    [rb_gc_impl_size_pool_id_for_size] ends in [rb_bug("size too big")] on
    every size above 640. *)
Theorem slot_size_pool_id_round_trip
    (o cache klass flags v1 v2 v3 : Z) (wb : bool) (size : Z)
    (s s' : gc_state) (obj : VALUE) :
  table_ok s →
  rb_gc_impl_new_obj o cache klass flags v1 v2 v3 wb size s = Done obj s' →
  let c := new_obj_round (size_pool_sizes s) 0 5 size in
  (∃ i : nat,
     rb_gc_impl_obj_slot_size obj s' = Done c s' ∧
     (let* sz := rb_gc_impl_obj_slot_size obj in
      rb_gc_impl_size_pool_id_for_size o sz) s' = Done (Z.of_nat i) s' ∧
     rb_gc_impl_size_pool_id_for_size o c s' = Done (Z.of_nat i) s' ∧
     size_pool_sizes s' !! i = Some c) ∧
  (∀ (o' big : Z) (t : gc_state),
     table_ok t → 640 < big →
     rb_gc_impl_size_pool_id_for_size o' big t = Fatal "size too big").
Proof.
  intros Htbl Hnew c. split.
  - assert (size ≤ 640) as Hs.
    { destruct (Z.le_gt_cases size 640) as [?|Hbig]; [assumption|].
      destruct (new_obj_too_big o cache klass flags v1 v2 v3 wb size s Hbig).
      congruence. }
    destruct (new_obj_table_ok o cache klass flags v1 v2 v3 wb size s Htbl Hs)
      as (c' & p & w & Hc & Hrange & Halloc & Heq).
    assert (c = c') as <- by (subst c c'; rewrite Htbl; reflexivity).
    rewrite Heq in Hnew. injection Hnew as <- <-.
    set (s1 := GcState _ _ _ _ _) in *.
    assert (rb_gc_impl_obj_slot_size (elem_addr p 1) s1 = Done c s1) as Hslot.
    { unfold rb_gc_impl_obj_slot_size, load. subst s1. cbn [heap].
      edestruct header_written_lookup as (-> & _); [|reflexivity]. lia. }
    assert (table_ok s1) as Htbl1 by reflexivity.
    pose proof (size_pool_id_for_size_table_ok o c s1 Htbl1) as Hid.
    rewrite size_pool_id_search_init in Hid.
    assert (c = 40 ∨ c = 80 ∨ c = 160 ∨ c = 320 ∨ c = 640) as Hcases.
    { rewrite Hc, (new_obj_round_init _ Hs). split_cmp; lia. }
    unfold bind at 1. rewrite Hslot.
    destruct Hcases as [E|[E|[E|[E|E]]]]; rewrite E in *; cbn in Hid;
      [exists 0%nat|exists 1%nat|exists 2%nat|exists 3%nat|exists 4%nat];
      repeat split; try exact Hid; reflexivity.
  - intros o' big t Ht Hbig.
    rewrite (size_pool_id_for_size_table_ok o' big t Ht),
      size_pool_id_search_init.
    split_cmp; try lia. reflexivity.
Qed.

(** C10.  [rb_gc_impl_size_allocatable_p size] is true exactly when
    [size <= 640].  With the table intact these are exactly the sizes on
    which [rb_gc_impl_new_obj] does not take its [rb_bug("too big")] branch
    and on which [rb_gc_impl_size_pool_id_for_size] does not abort: when
    the predicate holds both return, when it fails both end in [rb_bug]. *)
Theorem size_allocatable_p_guards_fatal_branches
    (o cache klass flags v1 v2 v3 : Z) (wb : bool) (size : Z) (s : gc_state) :
  table_ok s →
  (rb_gc_impl_size_allocatable_p size = true ↔ size ≤ 640) ∧
  (rb_gc_impl_size_allocatable_p size = true ↔
     rb_gc_impl_new_obj o cache klass flags v1 v2 v3 wb size s ≠ Fatal "too big") ∧
  (rb_gc_impl_size_allocatable_p size = true ↔
     ∀ msg, rb_gc_impl_size_pool_id_for_size o size s ≠ Fatal msg) ∧
  (rb_gc_impl_size_allocatable_p size = true →
     (∃ obj s', rb_gc_impl_new_obj o cache klass flags v1 v2 v3 wb size s
                = Done obj s') ∧
     (∃ i, rb_gc_impl_size_pool_id_for_size o size s = Done i s)) ∧
  (rb_gc_impl_size_allocatable_p size = false →
     rb_gc_impl_new_obj o cache klass flags v1 v2 v3 wb size s = Fatal "too big" ∧
     rb_gc_impl_size_pool_id_for_size o size s = Fatal "size too big").
Proof.
  intros Htbl.
  assert (rb_gc_impl_size_allocatable_p size = true ↔ size ≤ 640) as Hp
    by (unfold rb_gc_impl_size_allocatable_p; apply Z.leb_le).
  pose proof (size_pool_id_for_size_table_ok o size s Htbl) as Hid.
  rewrite size_pool_id_search_init in Hid.
  destruct (Z.le_gt_cases size 640) as [Hs|Hbig].
  - assert (rb_gc_impl_size_allocatable_p size = true) as Ht by (apply Hp; exact Hs).
    destruct (new_obj_table_ok o cache klass flags v1 v2 v3 wb size s Htbl Hs)
      as (c & p & w & _ & _ & _ & Heq).
    assert (∃ i, rb_gc_impl_size_pool_id_for_size o size s = Done i s) as [i Hi].
    { rewrite Hid. split_cmp; try lia; eexists; reflexivity. }
    split; [exact Hp|]. rewrite Heq, Hi, Ht.
    repeat split; try discriminate; eauto.
  - assert (rb_gc_impl_size_allocatable_p size = false) as Hf.
    { unfold rb_gc_impl_size_allocatable_p. apply Z.leb_gt. exact Hbig. }
    destruct (new_obj_too_big o cache klass flags v1 v2 v3 wb size s Hbig)
      as [Hfatal _].
    assert (rb_gc_impl_size_pool_id_for_size o size s = Fatal "size too big") as Hi.
    { rewrite Hid. split_cmp; try lia. reflexivity. }
    split; [exact Hp|]. rewrite Hfatal, Hi, Hf.
    repeat split; try discriminate; try congruence.
Qed.

End AllocationClaims.

(** ** Finalizer registration and the shutdown drain *)

Section FinalizerFacts.
Context `{C : Collaborators}.

(** One turn of the loop: what it does to an arbitrary state. *)
Lemma shutdown_loop_turn (o : Z) (obj : VALUE) (s : gc_state) :
  shutdown_call_finalizer_loop o [obj] s =
    if rb_gc_shutdown_call_finalizer_p (world s) (heap s) obj
    then call_rb_gc_obj_free o obj s
    else Done tt s.
Proof.
  cbn. unfold bind, call_rb_gc_shutdown_call_finalizer_p.
  destruct (rb_gc_shutdown_call_finalizer_p _ _ _); [|reflexivity].
  unfold call_rb_gc_obj_free. destruct (rb_gc_obj_free _ _ _). reflexivity.
Qed.

Lemma call_rb_gc_obj_free_done (o : Z) (obj : VALUE) (s : gc_state) :
  ∃ s', call_rb_gc_obj_free o obj s = Done tt s' ∧
        size_pool_sizes s' = size_pool_sizes s ∧
        obj_free_candidates s' = obj_free_candidates s ∧
        obj_free_calls s' = obj_free_calls s ++ [obj].
Proof.
  unfold call_rb_gc_obj_free. destruct (rb_gc_obj_free _ _ _).
  eexists. split; [reflexivity|]. repeat split.
Qed.

Lemma shutdown_loop_cons (o : Z) (obj : VALUE) (rest : list VALUE) (s : gc_state) :
  shutdown_call_finalizer_loop o (obj :: rest) s =
    (shutdown_call_finalizer_loop o [obj] ;;;
     shutdown_call_finalizer_loop o rest) s.
Proof.
  cbn. unfold bind, call_rb_gc_shutdown_call_finalizer_p.
  destruct (rb_gc_shutdown_call_finalizer_p _ _ _); [|reflexivity].
  destruct (call_rb_gc_obj_free_done o obj s) as (s' & -> & _). reflexivity.
Qed.

(** The loop always runs to its end; it leaves the table and the registry
    alone, and the calls it makes to [rb_gc_obj_free] are, in order, some of
    the entries it walked over, each at most at its own turn. *)
Lemma shutdown_loop_done (o : Z) (ptr : list VALUE) (s : gc_state) :
  ∃ s' freed,
    shutdown_call_finalizer_loop o ptr s = Done tt s' ∧
    size_pool_sizes s' = size_pool_sizes s ∧
    obj_free_candidates s' = obj_free_candidates s ∧
    obj_free_calls s' = obj_free_calls s ++ freed ∧
    freed `sublist_of` ptr.
Proof.
  revert s. induction ptr as [|obj rest IH]; intros s.
  - exists s, []. cbn. rewrite app_nil_r. repeat split. constructor.
  - rewrite shutdown_loop_cons. unfold bind at 1. rewrite shutdown_loop_turn.
    destruct (rb_gc_shutdown_call_finalizer_p _ _ _).
    + destruct (call_rb_gc_obj_free_done o obj s) as (s1 & -> & Ht & Hc & Hl).
      destruct (IH s1) as (s' & freed & -> & Ht' & Hc' & Hl' & Hsub).
      exists s', (obj :: freed). split; [reflexivity|].
      rewrite Ht', Hc', Hl', Ht, Hc, Hl, <- app_assoc. repeat split.
      constructor. exact Hsub.
    + destruct (IH s) as (s' & freed & -> & Ht' & Hc' & Hl' & Hsub).
      exists s', freed. repeat split; try assumption.
      apply sublist_cons. exact Hsub.
Qed.

Lemma shutdown_loop_app (o : Z) (l1 l2 : list VALUE) (s : gc_state) :
  shutdown_call_finalizer_loop o (l1 ++ l2) s =
    (shutdown_call_finalizer_loop o l1 ;;;
     shutdown_call_finalizer_loop o l2) s.
Proof.
  revert s. induction l1 as [|obj rest IH]; intros s.
  - reflexivity.
  - rewrite <- app_comm_cons, shutdown_loop_cons. unfold bind.
    rewrite (shutdown_loop_cons o obj rest s). unfold bind.
    destruct (shutdown_call_finalizer_loop o [obj] s) as [[] s1| |];
      [|reflexivity..].
    rewrite IH. reflexivity.
Qed.

(** The whole drain, in one equation. *)
Lemma shutdown_call_finalizer_unfold (o : Z) (s : gc_state) :
  rb_gc_impl_shutdown_call_finalizer o s =
    shutdown_call_finalizer_loop o (obj_free_candidates s)
      (GcState (size_pool_sizes s) (heap s) [] (obj_free_calls s) (world s)).
Proof.
  unfold rb_gc_impl_shutdown_call_finalizer, bind at 1.
  cbn [mmtk_get_all_obj_free_candidates]. unfold bind.
  destruct (shutdown_loop_done o (obj_free_candidates s)
              (GcState (size_pool_sizes s) (heap s) [] (obj_free_calls s) (world s)))
    as (s' & freed & -> & _). reflexivity.
Qed.

Lemma drain_prefix_unfold (o : Z) (s : gc_state) (i : nat) :
  drain_prefix o s i =
    after (shutdown_call_finalizer_loop o (take i (obj_free_candidates s)))
      (GcState (size_pool_sizes s) (heap s) [] (obj_free_calls s) (world s)).
Proof.
  unfold drain_prefix, after, bind, mmtk_get_all_obj_free_candidates.
  destruct (shutdown_loop_done o (take i (obj_free_candidates s))
              (GcState (size_pool_sizes s) (heap s) [] (obj_free_calls s) (world s)))
    as (s' & freed & -> & _). reflexivity.
Qed.

(** The loop does to the state what [cleanup_in_turn] says of the
    entries it walks over. *)
Lemma shutdown_loop_follows_cleanup (o : Z) (ptr : list VALUE) (s : gc_state)
    (w' : vm) (h' : gmap Z Z) (freed : list VALUE) :
  cleanup_in_turn (world s) (heap s) ptr = (w', h', freed) →
  shutdown_call_finalizer_loop o ptr s =
    Done tt (GcState (size_pool_sizes s) h' (obj_free_candidates s)
               (obj_free_calls s ++ freed) w').
Proof.
  revert s w' h' freed. induction ptr as [|obj rest IH]; intros s w' h' freed Hc.
  - cbn in Hc. injection Hc as <- <- <-. rewrite app_nil_r.
    destruct s; reflexivity.
  - rewrite shutdown_loop_cons. unfold bind. rewrite shutdown_loop_turn.
    cbn [cleanup_in_turn] in Hc.
    destruct (rb_gc_shutdown_call_finalizer_p (world s) (heap s) obj).
    + unfold call_rb_gc_obj_free.
      destruct (rb_gc_obj_free (world s) (heap s) obj) as [w1 h1].
      destruct (cleanup_in_turn w1 h1 rest) as [[w2 h2] f2] eqn:Hrest.
      injection Hc as <- <- <-.
      rewrite (IH (GcState (size_pool_sizes s) h1 (obj_free_candidates s)
                     (obj_free_calls s ++ [obj]) w1) w2 h2 f2 Hrest).
      cbn [size_pool_sizes obj_free_candidates obj_free_calls].
      rewrite <- app_assoc. reflexivity.
    + exact (IH s w' h' freed Hc).
Qed.

(** One more record at the end: its turn comes after all the others. *)
Lemma cleanup_in_turn_snoc (w : vm) (h : gmap Z Z) (l : list VALUE) (x : VALUE)
    (wi : vm) (hi : gmap Z Z) (fi : list VALUE) :
  cleanup_in_turn w h l = (wi, hi, fi) →
  cleanup_in_turn w h (l ++ [x]) =
    if rb_gc_shutdown_call_finalizer_p wi hi x
    then ((rb_gc_obj_free wi hi x).1, (rb_gc_obj_free wi hi x).2, fi ++ [x])
    else (wi, hi, fi).
Proof.
  revert w h wi hi fi. induction l as [|a l IH]; intros w h wi hi fi Hc.
  - cbn in Hc. injection Hc as <- <- <-. cbn.
    destruct (rb_gc_shutdown_call_finalizer_p w h x); [|reflexivity].
    destruct (rb_gc_obj_free w h x). reflexivity.
  - cbn [app cleanup_in_turn] in *.
    destruct (rb_gc_shutdown_call_finalizer_p w h a).
    + destruct (rb_gc_obj_free w h a) as [w1 h1].
      destruct (cleanup_in_turn w1 h1 l) as [[w2 h2] f2] eqn:Hl.
      injection Hc as <- <- <-.
      rewrite (IH w1 h1 w2 h2 f2 Hl).
      destruct (rb_gc_shutdown_call_finalizer_p w2 h2 x); reflexivity.
    + exact (IH w h wi hi fi Hc).
Qed.

Lemma cleanup_in_turn_sublist (w : vm) (h : gmap Z Z) (l : list VALUE) :
  (cleanup_in_turn w h l).2 `sublist_of` l.
Proof.
  revert w h. induction l as [|a l IH]; intros w h.
  - constructor.
  - cbn [cleanup_in_turn].
    destruct (rb_gc_shutdown_call_finalizer_p w h a).
    + destruct (rb_gc_obj_free w h a) as [w1 h1].
      specialize (IH w1 h1).
      destruct (cleanup_in_turn w1 h1 l) as [[w2 h2] f2].
      constructor. exact IH.
    + apply sublist_cons. apply IH.
Qed.

(** When freeing never changes the predicate's answers, the records cleaned
    up are those eligible at the start, and the cleanup is [rb_gc_obj_free]
    applied to each of them in order. *)
Lemma cleanup_in_turn_stable (w : vm) (h : gmap Z Z) (l : list VALUE) :
  finalizer_p_stable →
  let eligible := List.filter (rb_gc_shutdown_call_finalizer_p w h) l in
  cleanup_in_turn w h l =
    ((free_each w h eligible).1, (free_each w h eligible).2, eligible).
Proof.
  intros Hstable. cbv zeta. revert w h.
  induction l as [|a l IH]; intros w h.
  - reflexivity.
  - cbn [cleanup_in_turn List.filter].
    destruct (rb_gc_shutdown_call_finalizer_p w h a) eqn:Hp.
    + cbn [free_each]. pose proof (Hstable w h a) as Hst.
      destruct (rb_gc_obj_free w h a) as [w1 h1]. cbn [fst snd] in Hst.
      rewrite (IH w1 h1).
      rewrite (List.filter_ext _ _ Hst). reflexivity.
    + apply IH.
Qed.

End FinalizerFacts.

Section FinalizerClaims.
Context `{C : Collaborators}.

(** C3.  [rb_gc_impl_shutdown_call_finalizer] always returns.  It retrieves
    all pending candidates and does to them what [cleanup_in_turn] says:
    oldest first, each retrieved record has one turn, at which
    [rb_gc_obj_free] is applied to it exactly once if
    [rb_gc_shutdown_call_finalizer_p] holds for it then, and not at all
    otherwise.  The state it returns is the table as it was, the memory
    and collaborators' state those applications of [rb_gc_obj_free] leave,
    the history extended by the records cleaned up, and an empty registry.
    At every turn the loop's state is the one [cleanup_in_turn] gives for
    the records before it.  A second drain retrieves zero records, applies
    no cleanup and changes nothing. *)
Theorem shutdown_call_finalizer_drains_once (o : Z) (s : gc_state) :
  let cands := obj_free_candidates s in
  ∃ (w' : vm) (h' : gmap Z Z) (freed : list VALUE),
    let s1 := GcState (size_pool_sizes s) h' [] (obj_free_calls s ++ freed) w' in
    mmtk_get_all_obj_free_candidates s = Done cands (registry_taken s) ∧
    cleanup_in_turn (world s) (heap s) cands = (w', h', freed) ∧
    rb_gc_impl_shutdown_call_finalizer o s = Done tt s1 ∧
    freed `sublist_of` cands ∧
    (∀ (i : nat) (obj : VALUE),
       cands !! i = Some obj →
       ∃ (wi : vm) (hi : gmap Z Z) (fi : list VALUE),
         cleanup_in_turn (world s) (heap s) (take i cands) = (wi, hi, fi) ∧
         drain_prefix o s i =
           GcState (size_pool_sizes s) hi [] (obj_free_calls s ++ fi) wi ∧
         cleanup_in_turn (world s) (heap s) (take (S i) cands) =
           if rb_gc_shutdown_call_finalizer_p wi hi obj
           then ((rb_gc_obj_free wi hi obj).1, (rb_gc_obj_free wi hi obj).2,
                 fi ++ [obj])
           else (wi, hi, fi)) ∧
    mmtk_get_all_obj_free_candidates s1 = Done [] s1 ∧
    rb_gc_impl_shutdown_call_finalizer o s1 = Done tt s1.
Proof.
  intros cands. subst cands.
  destruct (cleanup_in_turn (world s) (heap s) (obj_free_candidates s))
    as [[w' h'] freed] eqn:Hall.
  exists w', h', freed. cbv zeta.
  split; [reflexivity|]. split; [reflexivity|]. split; [|split; [|split; [|split]]].
  - rewrite shutdown_call_finalizer_unfold.
    exact (shutdown_loop_follows_cleanup o (obj_free_candidates s)
             (registry_taken s) w' h' freed Hall).
  - pose proof (cleanup_in_turn_sublist (world s) (heap s) (obj_free_candidates s))
      as Hsub.
    rewrite Hall in Hsub. exact Hsub.
  - intros i obj Hi.
    destruct (cleanup_in_turn (world s) (heap s) (take i (obj_free_candidates s)))
      as [[wi hi] fi] eqn:Hpre.
    exists wi, hi, fi. split; [reflexivity|]. split.
    + rewrite drain_prefix_unfold. unfold after.
      pose proof (shutdown_loop_follows_cleanup o _ (registry_taken s) wi hi fi Hpre)
        as Hloop.
      unfold registry_taken in Hloop.
      cbn [size_pool_sizes obj_free_candidates obj_free_calls] in Hloop.
      rewrite Hloop. reflexivity.
    + rewrite (take_S_r _ _ _ Hi).
      exact (cleanup_in_turn_snoc _ _ _ obj wi hi fi Hpre).
  - reflexivity.
  - rewrite shutdown_call_finalizer_unfold. reflexivity.
Qed.

(** C4, as the code has it.  A call of [rb_gc_impl_new_obj] that returns appends
    the new object to the candidate registry exactly when
    [rb_gc_shutdown_call_finalizer_p] holds for the object as it has just
    been written, and otherwise leaves the registry as it was.  The
    [wb_protected] argument plays no part: the call does the same with
    either value of it. *)
Theorem new_obj_registers_by_finalizer_p
    (o cache klass flags v1 v2 v3 : Z) (wb : bool) (size : Z) (s : gc_state) :
  size ≤ 640 →
  ∃ obj s',
    rb_gc_impl_new_obj o cache klass flags v1 v2 v3 wb size s = Done obj s' ∧
    obj_free_candidates s' =
      obj_free_candidates s ++
        (if rb_gc_shutdown_call_finalizer_p (world s') (heap s') obj
         then [obj] else []) ∧
    rb_gc_impl_new_obj o cache klass flags v1 v2 v3 (negb wb) size s = Done obj s'.
Proof.
  intros Hs.
  destruct (mmtk_alloc (world s) cache
              (size_add (new_obj_round (size_pool_sizes s) 0 5 size) 8)
              MMTK_MIN_OBJ_ALIGN 0 MMTK_ALLOCATION_SEMANTICS_DEFAULT)
    as [p w] eqn:Halloc.
  pose proof (λ b, new_obj_done o cache klass flags v1 v2 v3 b size s _ p w
                     Hs eq_refl Halloc) as Heq.
  cbv zeta in Heq.
  eexists _, _. split; [exact (Heq wb)|]. split; [reflexivity|exact (Heq (negb wb))].
Qed.

End FinalizerClaims.

(** C4, counterexample to the reading in which the cleanup flag is "not
    write-barrier-protected": with the sample collaborators, a string
    object allocated with [wb_protected = false] is not registered, and a
    data object allocated with [wb_protected = true] is. *)
Lemma wb_protected_does_not_decide_registration :
  (∃ obj s',
     rb_gc_impl_new_obj 0 0 7 Sample.T_STRING 1 2 3 false 24 Sample.boot
       = Done obj s' ∧
     ¬ (obj ∈ obj_free_candidates s' ↔ not_wb_protected false)) ∧
  (∃ obj s',
     rb_gc_impl_new_obj 0 0 7 Sample.T_DATA 1 2 3 true 24 Sample.boot
       = Done obj s' ∧
     ¬ (obj ∈ obj_free_candidates s' ↔ not_wb_protected true)).
Proof.
  unfold not_wb_protected.
  split; eexists _, _; (split; [vm_compute; reflexivity|]); cbn.
  - intros [_ H]. specialize (H eq_refl). apply elem_of_nil in H. exact H.
  - intros [H _]. assert (true = false) as E by (apply H; constructor).
    discriminate E.
Qed.

(** ** Protocol stubs, configuration, and the table as an invariant *)

Section ProtocolClaims.
Context `{C : Collaborators}.

(** C5, as the code has it.  Every marking operation ([mark], [mark_and_move],
    [mark_and_pin], [mark_maybe], [mark_weak], [remove_weak],
    [objspace_mark]) and every compaction operation ([object_moved_p],
    [location]) ends in [rb_bug("unimplemented")], for every input and in
    every state.  The three write-barrier operations return normally and
    change nothing. *)
Theorem marking_aborts_barriers_return (o x y : Z) (s : gc_state) :
  (rb_gc_impl_mark o x s = Fatal "unimplemented" ∧
   rb_gc_impl_mark_and_move o x s = Fatal "unimplemented" ∧
   rb_gc_impl_mark_and_pin o x s = Fatal "unimplemented" ∧
   rb_gc_impl_mark_maybe o x s = Fatal "unimplemented" ∧
   rb_gc_impl_mark_weak o x s = Fatal "unimplemented" ∧
   rb_gc_impl_remove_weak o x y s = Fatal "unimplemented" ∧
   rb_gc_impl_objspace_mark o s = Fatal "unimplemented") ∧
  (rb_gc_impl_object_moved_p o x s = Fatal "unimplemented" ∧
   rb_gc_impl_location o x s = Fatal "unimplemented") ∧
  (rb_gc_impl_writebarrier o x y s = Done tt s ∧
   rb_gc_impl_writebarrier_unprotect o x s = Done tt s ∧
   rb_gc_impl_writebarrier_remember o x s = Done tt s).
Proof. repeat split. Qed.

(** C8, as the code has it.  [rb_gc_impl_config_set] rejects nothing: for every
    map it returns the map it was given, applies no key and leaves the
    state as it was; [rb_gc_impl_config_get] gives the empty map before
    and after. *)
Theorem config_set_returns_its_argument
    (o : Z) (hash : gmap string VALUE) (s : gc_state) :
  rb_gc_impl_config_set o hash s = Done hash s ∧
  rb_gc_impl_config_get o s = Done ∅ s ∧
  (rb_gc_impl_config_set o hash ;;; rb_gc_impl_config_get o) s = Done ∅ s.
Proof. repeat split. Qed.

(** No returning call writes to the table. *)
Lemma run_preserves_size_pool_sizes (c : gc_call) (s s' : gc_state) (v : retval) :
  run c s = Done v s' → size_pool_sizes s' = size_pool_sizes s.
Proof.
  destruct c; unfold run, void, returning, bind;
    try (cbn; intros [= <- <-]; reflexivity);
    try (cbn; discriminate).
  - (* new_obj *)
    destruct (Z.le_gt_cases alloc_size 640) as [Hs|Hbig].
    + destruct (mmtk_alloc (world s) cache_ptr
                  (size_add (new_obj_round (size_pool_sizes s) 0 5 alloc_size) 8)
                  MMTK_MIN_OBJ_ALIGN 0 MMTK_ALLOCATION_SEMANTICS_DEFAULT)
        as [p w] eqn:Halloc.
      rewrite (new_obj_done objspace_ptr cache_ptr klass flags v1 v2 v3
                 wb_protected alloc_size s _ p w Hs eq_refl Halloc).
      cbn. intros [= <- <-]. reflexivity.
    + destruct (new_obj_too_big objspace_ptr cache_ptr klass flags v1 v2 v3
                  wb_protected alloc_size s Hbig) as [-> _].
      discriminate.
  - (* obj_slot_size *)
    unfold rb_gc_impl_obj_slot_size, load.
    destruct (heap s !! elem_addr obj (-1)); [|discriminate].
    cbn. intros [= <- <-]. reflexivity.
  - (* size_pool_id_for_size *)
    unfold rb_gc_impl_size_pool_id_for_size, bind, get_size_pool_sizes.
    destruct (size_pool_id_search _ _ _ _); [|discriminate].
    cbn. intros [= <- <-]. reflexivity.
  - (* shutdown_call_finalizer *)
    rewrite shutdown_call_finalizer_unfold.
    destruct (shutdown_loop_done objspace_ptr (obj_free_candidates s)
                (GcState (size_pool_sizes s) (heap s) [] (obj_free_calls s)
                   (world s)))
      as (s1 & freed & -> & Htbl & _).
    cbn. intros [= <- <-]. exact Htbl.
Qed.

Lemma reachable_table_ok (s : gc_state) : reachable s → table_ok s.
Proof.
  induction 1 as [h w|c s s' v _ IH Hrun].
  - reflexivity.
  - unfold table_ok in *.
    rewrite (run_preserves_size_pool_sizes c s s' v Hrun). exact IH.
Qed.

(** C7.  In every state the backend can reach, the table handed out by
    [rb_gc_impl_size_pool_sizes] is 40, 80, 160, 320, 640 followed by the
    sentinel 0.  The five finite entries are strictly increasing; the one
    adjacent pair that does not ascend is the last one, 640 followed by the
    sentinel.  No returning call of any entry point changes the table. *)
Theorem size_pool_sizes_fixed (o : Z) (s : gc_state) :
  reachable s →
  rb_gc_impl_size_pool_sizes o s = Done [40; 80; 160; 320; 640; 0] s ∧
  (∀ (i j : nat) (x y : Z),
     (i < j < 5)%nat →
     size_pool_sizes s !! i = Some x → size_pool_sizes s !! j = Some y → x < y) ∧
  (∀ (i : nat) (x y : Z),
     size_pool_sizes s !! i = Some x → size_pool_sizes s !! S i = Some y →
     (y ≤ x ↔ i = 4%nat)) ∧
  size_pool_sizes s !! 5%nat = Some 0 ∧
  (∀ (c : gc_call) (v : retval) (s' : gc_state),
     run c s = Done v s' →
     size_pool_sizes s' = size_pool_sizes s ∧ reachable s').
Proof.
  intros Hreach. pose proof (reachable_table_ok s Hreach) as Htbl.
  unfold table_ok, size_pool_sizes_init in Htbl.
  unfold rb_gc_impl_size_pool_sizes, get_size_pool_sizes. rewrite Htbl.
  split; [reflexivity|]. split; [|split; [|split; [reflexivity|]]].
  - intros i j x y [Hij Hj] Hi Hj'.
    destruct j as [|[|[|[|[|j]]]]]; try lia;
      destruct i as [|[|[|[|i]]]]; try lia;
      cbn in Hi, Hj'; injection Hi as <-; injection Hj' as <-; lia.
  - intros i x y Hi Hi'.
    destruct i as [|[|[|[|[|[|i]]]]]]; cbn in Hi, Hi'; try discriminate;
      injection Hi as <-; injection Hi' as <-; split; intros; lia.
  - intros c v s' Hrun. split.
    + rewrite (run_preserves_size_pool_sizes c s s' v Hrun). exact Htbl.
    + exact (reachable_call c s s' v Hreach Hrun).
Qed.

End ProtocolClaims.

(** C5, counterexample: the write-barrier operations do not abort.  On a
    concrete call each of them returns normally, with the state as it
    was. *)
Lemma writebarrier_returns_silently :
  rb_gc_impl_writebarrier 0 4104 4200 Sample.boot = Done tt Sample.boot ∧
  rb_gc_impl_writebarrier_unprotect 0 4104 Sample.boot = Done tt Sample.boot ∧
  rb_gc_impl_writebarrier_remember 0 4104 Sample.boot = Done tt Sample.boot ∧
  ¬ (∃ msg, rb_gc_impl_writebarrier 0 4104 4200 Sample.boot = Fatal msg) ∧
  ¬ (∃ msg, rb_gc_impl_writebarrier_unprotect 0 4104 Sample.boot = Fatal msg) ∧
  ¬ (∃ msg, rb_gc_impl_writebarrier_remember 0 4104 Sample.boot = Fatal msg).
Proof.
  repeat split; intros [msg H]; discriminate H.
Qed.

(** C8, counterexample: a map with a key that the configuration does not
    have is not rejected; [rb_gc_impl_config_set] returns normally. *)
Lemma config_set_accepts_unknown_key :
  let hash : gmap string VALUE := {[ "no_such_key"%string := 1 ]} in
  (∃ known, rb_gc_impl_config_get 0 Sample.boot = Done known Sample.boot ∧
            known !! "no_such_key"%string = None) ∧
  hash !! "no_such_key"%string = Some 1 ∧
  rb_gc_impl_config_set 0 hash Sample.boot = Done hash Sample.boot ∧
  ¬ (∃ msg, rb_gc_impl_config_set 0 hash Sample.boot = Fatal msg).
Proof.
  cbv zeta. split; [|split; [|split]].
  - exists ∅. split; reflexivity.
  - reflexivity.
  - reflexivity.
  - intros [msg H]. discriminate H.
Qed.

(** ** The statements at work on concrete inputs

    Each statement above that carries an assumption is applied here to a
    concrete call on the sample collaborators, with the assumption
    discharged by evaluation. *)

Lemma new_obj_commits_smallest_class_at_24 :
  table_ok Sample.boot ∧ 24 ≤ 640 ∧
  ∃ obj s' c,
    rb_gc_impl_new_obj 0 0 7 Sample.T_DATA 1 2 3 true 24 Sample.boot = Done obj s' ∧
    smallest_class_geq size_pool_sizes_init 24 c ∧
    mmtk_alloc (world Sample.boot) 0 (c + 8) MMTK_MIN_OBJ_ALIGN 0
               MMTK_ALLOCATION_SEMANTICS_DEFAULT = (elem_addr obj (-1), world s') ∧
    rb_gc_impl_obj_slot_size obj s' = Done c s'.
Proof.
  split; [reflexivity|]. split; [lia|].
  apply (new_obj_commits_smallest_class 0 0 7 Sample.T_DATA 1 2 3 true 24 Sample.boot);
    [reflexivity|lia].
Defined.

Lemma new_obj_too_big_fatal_at_641 :
  640 < 641 ∧
  rb_gc_impl_new_obj 0 0 7 Sample.T_DATA 1 2 3 true 641 Sample.boot = Fatal "too big" ∧
  ∀ obj s',
    rb_gc_impl_new_obj 0 0 7 Sample.T_DATA 1 2 3 true 641 Sample.boot ≠ Done obj s'.
Proof.
  split; [lia|].
  apply (new_obj_too_big_fatal 0 0 7 Sample.T_DATA 1 2 3 true 641 Sample.boot). lia.
Defined.

Lemma new_obj_writes_whole_header_at_1 :
  table_ok Sample.boot ∧ 1 ≤ 640 ∧
  ∃ obj s' c,
    rb_gc_impl_new_obj 0 0 7 Sample.T_STRING 11 12 13 false 1 Sample.boot
      = Done obj s' ∧
    40 ≤ c ∧
    ((16 <? c) = true ∧ (24 <? c) = true ∧ (32 <? c) = true) ∧
    heap s' !! elem_addr obj (-1) = Some c ∧
    heap s' !! elem_addr obj 0 = Some Sample.T_STRING ∧
    heap s' !! elem_addr obj 1 = Some 7 ∧
    heap s' !! elem_addr obj 2 = Some 11 ∧
    heap s' !! elem_addr obj 3 = Some 12 ∧
    heap s' !! elem_addr obj 4 = Some 13 ∧
    elem_addr obj 4 + SIZEOF_VALUE ≤ elem_addr obj (-1) + (c + 8).
Proof.
  split; [reflexivity|]. split; [lia|].
  apply (new_obj_writes_whole_header 0 0 7 Sample.T_STRING 11 12 13 false 1
           Sample.boot); [reflexivity|lia].
Defined.

Lemma one_object_allocated :
  rb_gc_impl_new_obj 0 0 7 Sample.T_DATA 1 2 3 true 100 Sample.boot
  = Done 4104 one_object.
Proof. vm_compute. reflexivity. Defined.

Lemma one_object_reachable : reachable one_object.
Proof.
  apply (reachable_call
           (Call_new_obj 0 0 7 Sample.T_DATA 1 2 3 true 100)
           Sample.boot one_object (RValue 4104)).
  - apply reachable_init.
  - unfold run, returning, bind. rewrite one_object_allocated. reflexivity.
Defined.

Lemma slot_size_pool_id_round_trip_at_100 :
  table_ok Sample.boot ∧
  rb_gc_impl_new_obj 0 0 7 Sample.T_DATA 1 2 3 true 100 Sample.boot
    = Done 4104 one_object ∧
  let c := new_obj_round (size_pool_sizes Sample.boot) 0 5 100 in
  (∃ i : nat,
     rb_gc_impl_obj_slot_size 4104 one_object = Done c one_object ∧
     (let* sz := rb_gc_impl_obj_slot_size 4104 in
      rb_gc_impl_size_pool_id_for_size 0 sz) one_object
       = Done (Z.of_nat i) one_object ∧
     rb_gc_impl_size_pool_id_for_size 0 c one_object = Done (Z.of_nat i) one_object ∧
     size_pool_sizes one_object !! i = Some c) ∧
  (∀ (o' big : Z) (t : @gc_state Sample.collaborators),
     table_ok t → 640 < big →
     rb_gc_impl_size_pool_id_for_size o' big t = Fatal "size too big").
Proof.
  split; [reflexivity|]. split; [exact one_object_allocated|].
  apply (slot_size_pool_id_round_trip 0 0 7 Sample.T_DATA 1 2 3 true 100
           Sample.boot one_object 4104);
    [reflexivity|exact one_object_allocated].
Defined.

Lemma size_allocatable_p_guards_fatal_branches_at_640 :
  table_ok Sample.boot ∧
  (rb_gc_impl_size_allocatable_p 640 = true ↔ 640 ≤ 640) ∧
  (rb_gc_impl_size_allocatable_p 640 = true ↔
     rb_gc_impl_new_obj 0 0 7 Sample.T_DATA 1 2 3 true 640 Sample.boot
       ≠ Fatal "too big") ∧
  (rb_gc_impl_size_allocatable_p 640 = true ↔
     ∀ msg, rb_gc_impl_size_pool_id_for_size 0 640 Sample.boot ≠ Fatal msg) ∧
  (rb_gc_impl_size_allocatable_p 640 = true →
     (∃ obj s', rb_gc_impl_new_obj 0 0 7 Sample.T_DATA 1 2 3 true 640 Sample.boot
                = Done obj s') ∧
     (∃ i, rb_gc_impl_size_pool_id_for_size 0 640 Sample.boot = Done i Sample.boot)) ∧
  (rb_gc_impl_size_allocatable_p 640 = false →
     rb_gc_impl_new_obj 0 0 7 Sample.T_DATA 1 2 3 true 640 Sample.boot
       = Fatal "too big" ∧
     rb_gc_impl_size_pool_id_for_size 0 640 Sample.boot = Fatal "size too big").
Proof.
  split; [reflexivity|].
  apply (size_allocatable_p_guards_fatal_branches 0 0 7 Sample.T_DATA 1 2 3 true
           640 Sample.boot).
  reflexivity.
Defined.

Lemma new_obj_registers_by_finalizer_p_at_24 :
  24 ≤ 640 ∧
  ∃ obj s',
    rb_gc_impl_new_obj 0 0 7 Sample.T_FILE 1 2 3 false 24 Sample.boot = Done obj s' ∧
    obj_free_candidates s' =
      obj_free_candidates Sample.boot ++
        (if rb_gc_shutdown_call_finalizer_p (world s') (heap s') obj
         then [obj] else []) ∧
    rb_gc_impl_new_obj 0 0 7 Sample.T_FILE 1 2 3 (negb false) 24 Sample.boot
      = Done obj s'.
Proof.
  split; [lia|].
  apply (new_obj_registers_by_finalizer_p 0 0 7 Sample.T_FILE 1 2 3 false 24
           Sample.boot).
  lia.
Defined.

Lemma size_pool_sizes_fixed_after_alloc :
  reachable one_object ∧
  rb_gc_impl_size_pool_sizes 0 one_object = Done [40; 80; 160; 320; 640; 0] one_object ∧
  (∀ (i j : nat) (x y : Z),
     (i < j < 5)%nat →
     size_pool_sizes one_object !! i = Some x →
     size_pool_sizes one_object !! j = Some y → x < y) ∧
  (∀ (i : nat) (x y : Z),
     size_pool_sizes one_object !! i = Some x →
     size_pool_sizes one_object !! S i = Some y →
     (y ≤ x ↔ i = 4%nat)) ∧
  size_pool_sizes one_object !! 5%nat = Some 0 ∧
  (∀ (c : gc_call) (v : retval) (s' : gc_state),
     run c one_object = Done v s' →
     size_pool_sizes s' = size_pool_sizes one_object ∧ reachable s').
Proof.
  split; [exact one_object_reachable|].
  apply (size_pool_sizes_fixed 0 one_object). exact one_object_reachable.
Defined.

(** The drain on a registry of two: a data object and a file object were
    allocated, both are eligible, both are freed once, in order; a second
    drain finds nothing. *)
Example sample_drain :
  let s2 := after (rb_gc_impl_new_obj 0 0 7 Sample.T_DATA 1 2 3 true 24 ;;;
                   rb_gc_impl_new_obj 0 0 7 Sample.T_STRING 1 2 3 true 24 ;;;
                   rb_gc_impl_new_obj 0 0 7 Sample.T_FILE 1 2 3 true 24) Sample.boot in
  let s3 := after (rb_gc_impl_shutdown_call_finalizer 0) s2 in
  obj_free_candidates s2 = [4104; 4200] ∧
  obj_free_calls s3 = [4104; 4200] ∧
  obj_free_candidates s3 = [] ∧
  obj_free_calls (after (rb_gc_impl_shutdown_call_finalizer 0) s3) = [4104; 4200].
Proof. vm_compute. repeat split. Qed.

(** * Further properties of the allocation path *)

Section AllocationFrame.
Context `{C : Collaborators}.

(** A call of [rb_gc_impl_new_obj] that returned: where it came from. *)
Lemma new_obj_done_inv (o cache klass flags v1 v2 v3 : Z) (wb : bool) (size : Z)
    (s s' : gc_state) (obj : VALUE) :
  rb_gc_impl_new_obj o cache klass flags v1 v2 v3 wb size s = Done obj s' →
  size ≤ 640 ∧
  ∃ p w,
    let c := new_obj_round (size_pool_sizes s) 0 5 size in
    mmtk_alloc (world s) cache (size_add c 8) MMTK_MIN_OBJ_ALIGN 0
               MMTK_ALLOCATION_SEMANTICS_DEFAULT = (p, w) ∧
    obj = elem_addr p 1 ∧
    s' = GcState (size_pool_sizes s)
           (header_written (heap s) obj c flags klass v1 v2 v3)
           (obj_free_candidates s ++
              if rb_gc_shutdown_call_finalizer_p w
                   (header_written (heap s) obj c flags klass v1 v2 v3) obj
              then [obj] else [])
           (obj_free_calls s) w.
Proof.
  intros Hnew.
  assert (size ≤ 640) as Hs.
  { destruct (Z.le_gt_cases size 640) as [?|Hbig]; [assumption|].
    destruct (new_obj_too_big o cache klass flags v1 v2 v3 wb size s Hbig).
    congruence. }
  split; [exact Hs|].
  destruct (mmtk_alloc (world s) cache
              (size_add (new_obj_round (size_pool_sizes s) 0 5 size) 8)
              MMTK_MIN_OBJ_ALIGN 0 MMTK_ALLOCATION_SEMANTICS_DEFAULT)
    as [p w] eqn:Halloc.
  pose proof (new_obj_done o cache klass flags v1 v2 v3 wb size s _ p w
                Hs eq_refl Halloc) as Heq.
  cbv zeta in Heq. rewrite Heq in Hnew. injection Hnew as <- <-.
  exists p, w. cbv zeta. split; [exact Halloc|]. split; reflexivity.
Qed.

Lemma header_written_frame (h : gmap Z Z) (obj c flags klass v1 v2 v3 a : Z) :
  a ∉ header_words obj →
  header_written h obj c flags klass v1 v2 v3 !! a = h !! a.
Proof.
  intros Ha. unfold header_words in Ha.
  rewrite !not_elem_of_cons in Ha.
  destruct Ha as (? & ? & ? & ? & ? & ? & _).
  unfold header_written.
  destruct (16 <? c), (24 <? c), (32 <? c);
    rewrite ?lookup_insert_ne by congruence; reflexivity.
Qed.

(** X1.  A call of [rb_gc_impl_new_obj] that returns writes to memory only
    at the six words [obj[-1]] .. [obj[4]] of the object it returns: every
    other address holds what it held before.  It leaves the size-class
    table as it was and makes no call to [rb_gc_obj_free]. *)
Theorem new_obj_writes_only_its_header
    (o cache klass flags v1 v2 v3 : Z) (wb : bool) (size : Z)
    (s s' : gc_state) (obj : VALUE) :
  rb_gc_impl_new_obj o cache klass flags v1 v2 v3 wb size s = Done obj s' →
  (∀ a : Z, a ∉ header_words obj → heap s' !! a = heap s !! a) ∧
  size_pool_sizes s' = size_pool_sizes s ∧
  obj_free_calls s' = obj_free_calls s.
Proof.
  intros Hnew.
  destruct (new_obj_done_inv _ _ _ _ _ _ _ _ _ _ _ _ Hnew)
    as (_ & p & w & _ & _ & ->).
  cbn [heap size_pool_sizes obj_free_calls]. split; [|split; reflexivity].
  intros a Ha. apply header_written_frame. exact Ha.
Qed.

(** X2.  With the table intact, an object allocated earlier keeps its
    whole header across a later allocation, provided the allocator hands
    out a block that does not overlap the earlier object's block: the six
    words still hold the class, flags, klass and inline words written for
    it, and [rb_gc_impl_obj_slot_size] still reads its class. *)
Theorem new_obj_preserves_earlier_object
    (o1 cache1 klass1 flags1 a1 a2 a3 : Z) (wb1 : bool) (size1 : Z)
    (o2 cache2 klass2 flags2 b1 b2 b3 : Z) (wb2 : bool) (size2 : Z)
    (s s1 s2 : gc_state) (obj1 obj2 : VALUE) :
  table_ok s →
  rb_gc_impl_new_obj o1 cache1 klass1 flags1 a1 a2 a3 wb1 size1 s = Done obj1 s1 →
  rb_gc_impl_new_obj o2 cache2 klass2 flags2 b1 b2 b3 wb2 size2 s1 = Done obj2 s2 →
  let c1 := new_obj_round size_pool_sizes_init 0 5 size1 in
  let c2 := new_obj_round size_pool_sizes_init 0 5 size2 in
  elem_addr obj1 (-1) + (c1 + 8) ≤ elem_addr obj2 (-1) ∨
  elem_addr obj2 (-1) + (c2 + 8) ≤ elem_addr obj1 (-1) →
  heap s2 !! elem_addr obj1 (-1) = Some c1 ∧
  heap s2 !! elem_addr obj1 0 = Some flags1 ∧
  heap s2 !! elem_addr obj1 1 = Some klass1 ∧
  heap s2 !! elem_addr obj1 2 = Some a1 ∧
  heap s2 !! elem_addr obj1 3 = Some a2 ∧
  heap s2 !! elem_addr obj1 4 = Some a3 ∧
  rb_gc_impl_obj_slot_size obj1 s2 = Done c1 s2.
Proof.
  intros Htbl Hnew1 Hnew2 c1 c2 Hdisj.
  destruct (new_obj_done_inv _ _ _ _ _ _ _ _ _ _ _ _ Hnew1)
    as (Hs1 & p1 & w1 & _ & _ & Hst1).
  destruct (new_obj_done_inv _ _ _ _ _ _ _ _ _ _ _ _ Hnew2)
    as (Hs2 & p2 & w2 & _ & _ & Hst2).
  cbv zeta in Hst1, Hst2.
  assert (size_pool_sizes s1 = size_pool_sizes_init) as Htbl1
    by (rewrite Hst1; exact Htbl).
  rewrite Htbl in Hst1. rewrite Htbl1 in Hst2. fold c1 in Hst1. fold c2 in Hst2.
  pose proof (new_obj_round_at_least_40 size1 Hs1) as H1. fold c1 in H1.
  pose proof (new_obj_round_at_least_40 size2 Hs2) as H2. fold c2 in H2.
  pose proof (header_written_lookup (heap s) obj1 c1 flags1 klass1 a1 a2 a3
                ltac:(lia)) as Hl.
  cbv zeta in Hl.
  assert (∀ k : Z, -1 ≤ k ≤ 4 →
            heap s2 !! elem_addr obj1 k = heap s1 !! elem_addr obj1 k) as Hframe.
  { intros k Hk. rewrite Hst2. cbn [heap]. apply header_written_frame.
    unfold header_words. rewrite !not_elem_of_cons.
    unfold elem_addr, SIZEOF_VALUE in *.
    repeat split; try lia. apply not_elem_of_nil. }
  assert (heap s1 = header_written (heap s) obj1 c1 flags1 klass1 a1 a2 a3) as Hh1
    by (rewrite Hst1; reflexivity).
  destruct Hl as (L0 & L1 & L2 & L3 & L4 & L5).
  assert (heap s2 !! elem_addr obj1 (-1) = Some c1) as Hsz
    by (rewrite Hframe, Hh1 by lia; exact L0).
  repeat split;
    try (rewrite Hframe, Hh1 by lia; assumption).
  unfold rb_gc_impl_obj_slot_size, load. rewrite Hsz. reflexivity.
Qed.

End AllocationFrame.

(** ** The two loops over the table *)

(** X3.  On sizes up to 640 the rounding of [rb_gc_impl_new_obj] never
    lowers a size, is monotone, and maps every class to itself: rounding
    twice is rounding once. *)
Theorem new_obj_round_monotone_idempotent (a b : Z) :
  a ≤ b → b ≤ 640 →
  let round := new_obj_round size_pool_sizes_init 0 5 in
  a ≤ round a ∧ round a ≤ round b ∧ round (round a) = round a.
Proof.
  intros Hab Hb. cbv zeta.
  assert (new_obj_round size_pool_sizes_init 0 5 a ≤ 640) as Hra.
  { rewrite new_obj_round_init by lia. split_cmp; lia. }
  rewrite (new_obj_round_init (new_obj_round size_pool_sizes_init 0 5 a) Hra).
  rewrite (new_obj_round_init a) by lia. rewrite (new_obj_round_init b Hb).
  split_cmp; lia.
Qed.

(** X4.  Rounding wastes less than the request itself once the request
    exceeds 20 bytes: the committed class is at most
    [max 40 (2 * size - 2)], and 40 for every smaller request. *)
Theorem new_obj_round_waste_bound (size : Z) :
  size ≤ 640 →
  new_obj_round size_pool_sizes_init 0 5 size ≤ Z.max 40 (2 * size - 2) ∧
  (size ≤ 40 → new_obj_round size_pool_sizes_init 0 5 size = 40) ∧
  new_obj_round size_pool_sizes_init 0 5 size mod MMTK_MIN_OBJ_ALIGN = 0.
Proof.
  intros Hs. rewrite (new_obj_round_init size Hs). unfold MMTK_MIN_OBJ_ALIGN.
  split_cmp; repeat split; intros; try lia; reflexivity.
Qed.

Section PoolId.
Context `{C : Collaborators}.

(** X5.  With the table intact, [rb_gc_impl_size_pool_id_for_size] on a
    size up to 640 returns, without changing the state, the index of the
    very class [rb_gc_impl_new_obj] commits for that size; the request and
    its class have the same pool id. *)
Theorem size_pool_id_indexes_committed_class (o size : Z) (s : gc_state) :
  table_ok s → size ≤ 640 →
  let c := new_obj_round (size_pool_sizes s) 0 5 size in
  ∃ i : nat,
    rb_gc_impl_size_pool_id_for_size o size s = Done (Z.of_nat i) s ∧
    (i < 5)%nat ∧
    size_pool_sizes s !! i = Some c ∧
    rb_gc_impl_size_pool_id_for_size o c s = Done (Z.of_nat i) s.
Proof.
  intros Htbl Hs c. subst c.
  rewrite !(size_pool_id_for_size_table_ok _ _ _ Htbl), Htbl.
  rewrite !size_pool_id_search_init, (new_obj_round_init size Hs).
  destruct (Z.leb_spec size 40);
    [exists 0%nat; cbn; repeat split; lia|].
  destruct (Z.leb_spec size 80);
    [exists 1%nat; cbn; repeat split; lia|].
  destruct (Z.leb_spec size 160);
    [exists 2%nat; cbn; repeat split; lia|].
  destruct (Z.leb_spec size 320);
    [exists 3%nat; cbn; repeat split; lia|].
  exists 4%nat. destruct (Z.leb_spec size 640); [|lia].
  cbn; repeat split; lia.
Qed.

(** X6.  With the table intact, the pool id returned for a size is the
    least index whose table entry is at least that size, and pool ids are
    monotone in the size: a larger request never gets a smaller id. *)
Theorem size_pool_id_least_and_monotone (o a b : Z) (s : gc_state) :
  table_ok s → a ≤ b → b ≤ 640 →
  ∃ i j : nat,
    rb_gc_impl_size_pool_id_for_size o a s = Done (Z.of_nat i) s ∧
    rb_gc_impl_size_pool_id_for_size o b s = Done (Z.of_nat j) s ∧
    (i ≤ j < 5)%nat ∧
    (∃ e, size_pool_sizes s !! i = Some e ∧ a ≤ e) ∧
    (∀ (k : nat) (e : Z), (k < i)%nat → size_pool_sizes s !! k = Some e → e < a).
Proof.
  intros Htbl Hab Hb.
  rewrite !(size_pool_id_for_size_table_ok _ _ _ Htbl), Htbl.
  rewrite !size_pool_id_search_init.
  assert (∀ (i : nat) (k : nat) (e : Z),
            (k < i)%nat → (i < 5)%nat →
            size_pool_sizes_init !! k = Some e →
            (∀ e', size_pool_sizes_init !! (i - 1)%nat = Some e' → e' < a) →
            e < a) as Hbelow.
  { intros i k e Hk Hi He Hprev.
    destruct i as [|[|[|[|[|i]]]]]; try lia;
      destruct k as [|[|[|[|k]]]]; try lia;
      cbn in He; injection He as <-;
      specialize (Hprev _ eq_refl); lia. }
  destruct (Z.leb_spec a 40).
  { destruct (Z.leb_spec b 40); [exists 0%nat, 0%nat|].
    2: destruct (Z.leb_spec b 80); [exists 0%nat, 1%nat|].
    3: destruct (Z.leb_spec b 160); [exists 0%nat, 2%nat|].
    4: destruct (Z.leb_spec b 320); [exists 0%nat, 3%nat|].
    5: destruct (Z.leb_spec b 640); [exists 0%nat, 4%nat|lia].
    all: repeat split; try lia; try (eexists; split; [reflexivity|lia]);
      intros k e Hk; lia. }
  destruct (Z.leb_spec a 80).
  { destruct (Z.leb_spec b 40); [lia|].
    destruct (Z.leb_spec b 80); [exists 1%nat, 1%nat|].
    2: destruct (Z.leb_spec b 160); [exists 1%nat, 2%nat|].
    3: destruct (Z.leb_spec b 320); [exists 1%nat, 3%nat|].
    4: destruct (Z.leb_spec b 640); [exists 1%nat, 4%nat|lia].
    all: repeat split; try lia; try (eexists; split; [reflexivity|lia]);
      intros k e Hk He; apply (Hbelow 1%nat k e Hk ltac:(lia) He);
      intros e' [= <-]; lia. }
  destruct (Z.leb_spec a 160).
  { destruct (Z.leb_spec b 40); [lia|]. destruct (Z.leb_spec b 80); [lia|].
    destruct (Z.leb_spec b 160); [exists 2%nat, 2%nat|].
    2: destruct (Z.leb_spec b 320); [exists 2%nat, 3%nat|].
    3: destruct (Z.leb_spec b 640); [exists 2%nat, 4%nat|lia].
    all: repeat split; try lia; try (eexists; split; [reflexivity|lia]);
      intros k e Hk He; apply (Hbelow 2%nat k e Hk ltac:(lia) He);
      intros e' [= <-]; lia. }
  destruct (Z.leb_spec a 320).
  { destruct (Z.leb_spec b 40); [lia|]. destruct (Z.leb_spec b 80); [lia|].
    destruct (Z.leb_spec b 160); [lia|].
    destruct (Z.leb_spec b 320); [exists 3%nat, 3%nat|].
    2: destruct (Z.leb_spec b 640); [exists 3%nat, 4%nat|lia].
    all: repeat split; try lia; try (eexists; split; [reflexivity|lia]);
      intros k e Hk He; apply (Hbelow 3%nat k e Hk ltac:(lia) He);
      intros e' [= <-]; lia. }
  destruct (Z.leb_spec a 640); [|lia].
  destruct (Z.leb_spec b 40); [lia|]. destruct (Z.leb_spec b 80); [lia|].
  destruct (Z.leb_spec b 160); [lia|]. destruct (Z.leb_spec b 320); [lia|].
  destruct (Z.leb_spec b 640); [|lia].
  exists 4%nat, 4%nat.
  repeat split; try lia; try (eexists; split; [reflexivity|lia]).
  intros k e Hk He. apply (Hbelow 4%nat k e Hk ltac:(lia) He).
  intros e' [= <-]. lia.
Qed.

End PoolId.

(** * Further properties of the entry points as a whole *)

Section EntryPoints.
Context `{C : Collaborators}.

Lemma neutral_call_returns_same_state (c : gc_call) (s s' : gc_state) (v : retval) :
  is_alloc_or_drain c = false → run c s = Done v s' → s' = s.
Proof.
  intros Hc.
  destruct c; try discriminate Hc; unfold run, void, returning, bind;
    try (cbn; intros [= <- <-]; reflexivity);
    try (cbn; discriminate).
  - unfold rb_gc_impl_obj_slot_size, load.
    destruct (heap s !! elem_addr obj (-1)); [|discriminate].
    cbn. intros [= <- <-]. reflexivity.
  - unfold rb_gc_impl_size_pool_id_for_size, bind, get_size_pool_sizes.
    destruct (size_pool_id_search _ _ _ _); [|discriminate].
    cbn. intros [= <- <-]. reflexivity.
Qed.

(** X9.  Outside the shutdown drain the registry is append-only and
    [rb_gc_obj_free] is never called: a returning call of any other entry
    point leaves the history of [rb_gc_obj_free] calls as it was and the
    old registry as a prefix of the new one, with at most one record
    added. *)
Theorem registry_append_only_outside_drain
    (c : gc_call) (s s' : gc_state) (v : retval) :
  is_drain c = false → run c s = Done v s' →
  obj_free_calls s' = obj_free_calls s ∧
  ∃ added : list VALUE,
    obj_free_candidates s' = obj_free_candidates s ++ added ∧
    (length added ≤ 1)%nat.
Proof.
  intros Hc Hrun.
  destruct (is_alloc_or_drain c) eqn:Hk.
  - destruct c; try discriminate Hk; try discriminate Hc.
    unfold run, returning, bind in Hrun.
    destruct (rb_gc_impl_new_obj _ _ _ _ _ _ _ _ _ s) as [obj s1| |] eqn:Hnew;
      try discriminate Hrun.
    cbn in Hrun. injection Hrun as _ <-.
    destruct (new_obj_done_inv _ _ _ _ _ _ _ _ _ _ _ _ Hnew)
      as (_ & p & w & _ & _ & ->).
    cbn [obj_free_calls obj_free_candidates]. split; [reflexivity|].
    eexists. split; [reflexivity|].
    destruct (rb_gc_shutdown_call_finalizer_p _ _ _); cbn; lia.
  - rewrite (neutral_call_returns_same_state c s s' v Hk Hrun).
    split; [reflexivity|]. exists []. rewrite app_nil_r. split; [reflexivity|].
    cbn. lia.
Qed.

End EntryPoints.

(** * Further properties of the shutdown drain *)

Section DrainFacts.
Context `{C : Collaborators}.

(** An allocation into an empty registry, then a drain. *)
Lemma drain_after_alloc_from_empty
    (o cache klass flags v1 v2 v3 : Z) (wb : bool) (size : Z) (o' : Z)
    (s s1 : gc_state) (obj : VALUE) :
  obj_free_candidates s = [] →
  rb_gc_impl_new_obj o cache klass flags v1 v2 v3 wb size s = Done obj s1 →
  ∃ s2,
    rb_gc_impl_shutdown_call_finalizer o' s1 = Done tt s2 ∧
    obj_free_candidates s2 = [] ∧
    obj_free_calls s2 =
      obj_free_calls s ++
        (if rb_gc_shutdown_call_finalizer_p (world s1) (heap s1) obj
         then [obj] else []) ∧
    size_pool_sizes s2 = size_pool_sizes s ∧
    (world s2, heap s2) =
      if rb_gc_shutdown_call_finalizer_p (world s1) (heap s1) obj
      then rb_gc_obj_free (world s1) (heap s1) obj
      else (world s1, heap s1).
Proof.
  intros Hempty Hnew.
  destruct (new_obj_done_inv _ _ _ _ _ _ _ _ _ _ _ _ Hnew)
    as (_ & p & w & _ & _ & ->).
  rewrite shutdown_call_finalizer_unfold.
  cbn [obj_free_candidates obj_free_calls size_pool_sizes heap world].
  rewrite Hempty. cbn [app].
  destruct (rb_gc_shutdown_call_finalizer_p w _ obj) eqn:Hp.
  - destruct (rb_gc_obj_free w
                (header_written (heap s) obj
                   (new_obj_round (size_pool_sizes s) 0 5 size)
                   flags klass v1 v2 v3) obj) as [w1 h1] eqn:Hfree.
    erewrite shutdown_loop_follows_cleanup.
    2: { cbn [cleanup_in_turn world heap]. rewrite Hp, Hfree. reflexivity. }
    eexists. split; [reflexivity|].
    cbn [obj_free_candidates obj_free_calls size_pool_sizes heap world].
    repeat split.
  - eexists. split; [reflexivity|]. cbn. rewrite app_nil_r. repeat split.
Qed.

(** The drain leaves an empty registry. *)
Lemma drain_leaves_registry_empty (o : Z) (s s1 : gc_state) :
  rb_gc_impl_shutdown_call_finalizer o s = Done tt s1 →
  obj_free_candidates s1 = [].
Proof.
  rewrite shutdown_call_finalizer_unfold. intros Hrun.
  destruct (shutdown_loop_done o (obj_free_candidates s)
              (GcState (size_pool_sizes s) (heap s) [] (obj_free_calls s) (world s)))
    as (s' & freed & Hrun' & _ & Hreg & _).
  rewrite Hrun' in Hrun. injection Hrun as <-. exact Hreg.
Qed.

(** The loop over entries none of which is eligible. *)
Lemma shutdown_loop_none_eligible (o : Z) (ptr : list VALUE) (s : gc_state) :
  (∀ x, x ∈ ptr → rb_gc_shutdown_call_finalizer_p (world s) (heap s) x = false) →
  shutdown_call_finalizer_loop o ptr s = Done tt s.
Proof.
  induction ptr as [|obj rest IH]; intros Hnone.
  - reflexivity.
  - rewrite shutdown_loop_cons. unfold bind. rewrite shutdown_loop_turn.
    rewrite (Hnone obj) by constructor.
    apply IH. intros x Hx. apply Hnone. constructor. exact Hx.
Qed.

End DrainFacts.

Section DrainClaims.
Context `{C : Collaborators}.

(** X10.  Allocate, then shut down: starting from an empty registry, an
    allocation followed by the shutdown drain applies [rb_gc_obj_free] to
    the new object exactly once if [rb_gc_shutdown_call_finalizer_p] held
    for it when it was allocated (memory and the collaborators' state after
    the drain are what that one application leaves), and not at all
    otherwise (memory and the collaborators' state are as the allocation
    left them).  The registry is empty afterwards and the table is as it
    was. *)
Theorem allocate_then_drain
    (o cache klass flags v1 v2 v3 : Z) (wb : bool) (size : Z) (o' : Z)
    (s : gc_state) :
  obj_free_candidates s = [] → size ≤ 640 →
  ∃ obj s1 s2,
    rb_gc_impl_new_obj o cache klass flags v1 v2 v3 wb size s = Done obj s1 ∧
    rb_gc_impl_shutdown_call_finalizer o' s1 = Done tt s2 ∧
    obj_free_candidates s2 = [] ∧
    obj_free_calls s2 =
      obj_free_calls s ++
        (if rb_gc_shutdown_call_finalizer_p (world s1) (heap s1) obj
         then [obj] else []) ∧
    size_pool_sizes s2 = size_pool_sizes s ∧
    (world s2, heap s2) =
      if rb_gc_shutdown_call_finalizer_p (world s1) (heap s1) obj
      then rb_gc_obj_free (world s1) (heap s1) obj
      else (world s1, heap s1).
Proof.
  intros Hempty Hs.
  destruct (mmtk_alloc (world s) cache
              (size_add (new_obj_round (size_pool_sizes s) 0 5 size) 8)
              MMTK_MIN_OBJ_ALIGN 0 MMTK_ALLOCATION_SEMANTICS_DEFAULT)
    as [p w] eqn:Halloc.
  pose proof (new_obj_done o cache klass flags v1 v2 v3 wb size s _ p w
                Hs eq_refl Halloc) as Hnew.
  cbv zeta in Hnew.
  destruct (drain_after_alloc_from_empty _ _ _ _ _ _ _ _ _ o' _ _ _ Hempty Hnew)
    as (s2 & Hdrain & Hreg & Hcalls & Htbl & Hfree).
  eexists _, _, s2. split; [exact Hnew|]. split; [exact Hdrain|].
  split; [exact Hreg|]. split; [exact Hcalls|]. split; [exact Htbl|exact Hfree].
Qed.

(** X11.  No record is processed by two drains: when a drain is followed by
    an allocation and a second drain, the second drain's only possible call
    to [rb_gc_obj_free] is for the object allocated in between; nothing the
    first drain retrieved is visited again. *)
Theorem second_drain_sees_only_new_objects
    (o o' o'' cache klass flags v1 v2 v3 : Z) (wb : bool) (size : Z)
    (s s1 s2 s3 : gc_state) (obj : VALUE) :
  rb_gc_impl_shutdown_call_finalizer o s = Done tt s1 →
  rb_gc_impl_new_obj o' cache klass flags v1 v2 v3 wb size s1 = Done obj s2 →
  rb_gc_impl_shutdown_call_finalizer o'' s2 = Done tt s3 →
  obj_free_candidates s3 = [] ∧
  obj_free_calls s3 =
    obj_free_calls s1 ++
      if rb_gc_shutdown_call_finalizer_p (world s2) (heap s2) obj
      then [obj] else [].
Proof.
  intros Hd1 Hnew Hd2.
  pose proof (drain_leaves_registry_empty o s s1 Hd1) as Hempty.
  destruct (drain_after_alloc_from_empty _ _ _ _ _ _ _ _ _ o'' _ _ _ Hempty Hnew)
    as (s3' & Hdrain & Hreg & Hcalls & _).
  rewrite Hdrain in Hd2. injection Hd2 as <-. split; assumption.
Qed.

(** X12.  When freeing an object never changes the answer of
    [rb_gc_shutdown_call_finalizer_p] for any object, the drain applies
    [rb_gc_obj_free] to exactly the registered candidates for which the
    predicate holds when the drain starts, in registration order, once per
    record: memory and the collaborators' state after the drain are those
    of [rb_gc_obj_free] applied to each of them in turn.  The registry is
    empty afterwards and the table is as it was. *)
Theorem drain_frees_eligible_candidates_in_order (o : Z) (s : gc_state) :
  finalizer_p_stable →
  let eligible :=
    List.filter (rb_gc_shutdown_call_finalizer_p (world s) (heap s))
      (obj_free_candidates s) in
  ∃ s1,
    rb_gc_impl_shutdown_call_finalizer o s = Done tt s1 ∧
    obj_free_candidates s1 = [] ∧
    obj_free_calls s1 = obj_free_calls s ++ eligible ∧
    (world s1, heap s1) = free_each (world s) (heap s) eligible ∧
    size_pool_sizes s1 = size_pool_sizes s.
Proof.
  intros Hstable eligible.
  pose proof (cleanup_in_turn_stable (world s) (heap s) (obj_free_candidates s)
                Hstable) as Hc.
  cbv zeta in Hc. fold eligible in Hc.
  rewrite shutdown_call_finalizer_unfold.
  pose proof (shutdown_loop_follows_cleanup o (obj_free_candidates s)
                (registry_taken s) _ _ _ Hc) as Hloop.
  unfold registry_taken in Hloop.
  cbn [size_pool_sizes obj_free_candidates obj_free_calls] in Hloop.
  eexists. split; [exact Hloop|].
  cbn [obj_free_candidates obj_free_calls size_pool_sizes heap world].
  repeat split. destruct (free_each (world s) (heap s) eligible). reflexivity.
Qed.

(** X13.  When no registered candidate is eligible, the drain calls
    [rb_gc_obj_free] on none of them and touches neither memory nor the
    collaborators' state: all it does is empty the registry. *)
Theorem drain_without_eligible_candidates (o : Z) (s : gc_state) :
  (∀ x, x ∈ obj_free_candidates s →
        rb_gc_shutdown_call_finalizer_p (world s) (heap s) x = false) →
  rb_gc_impl_shutdown_call_finalizer o s = Done tt (registry_taken s).
Proof.
  intros Hnone. rewrite shutdown_call_finalizer_unfold.
  apply (shutdown_loop_none_eligible o (obj_free_candidates s) (registry_taken s)).
  exact Hnone.
Qed.

End DrainClaims.

(** ** The further statements at work on concrete inputs *)

Lemma two_objects_allocated :
  rb_gc_impl_new_obj 0 0 9 Sample.T_STRING 4 5 6 false 30 one_object
  = Done 4272 two_objects.
Proof. vm_compute. reflexivity. Defined.

Lemma new_obj_writes_only_its_header_at_100 :
  rb_gc_impl_new_obj 0 0 7 Sample.T_DATA 1 2 3 true 100 Sample.boot
    = Done 4104 one_object ∧
  (∀ a : Z, a ∉ header_words 4104 → heap one_object !! a = heap Sample.boot !! a) ∧
  size_pool_sizes one_object = size_pool_sizes Sample.boot ∧
  obj_free_calls one_object = obj_free_calls Sample.boot.
Proof.
  split; [exact one_object_allocated|].
  apply (new_obj_writes_only_its_header 0 0 7 Sample.T_DATA 1 2 3 true 100
           Sample.boot one_object 4104).
  exact one_object_allocated.
Defined.

Lemma new_obj_preserves_earlier_object_at_100_30 :
  table_ok Sample.boot ∧
  heap two_objects !! elem_addr 4104 (-1) = Some 160 ∧
  heap two_objects !! elem_addr 4104 0 = Some Sample.T_DATA ∧
  heap two_objects !! elem_addr 4104 1 = Some 7 ∧
  heap two_objects !! elem_addr 4104 2 = Some 1 ∧
  heap two_objects !! elem_addr 4104 3 = Some 2 ∧
  heap two_objects !! elem_addr 4104 4 = Some 3 ∧
  rb_gc_impl_obj_slot_size 4104 two_objects = Done 160 two_objects.
Proof.
  split; [reflexivity|].
  apply (new_obj_preserves_earlier_object
           0 0 7 Sample.T_DATA 1 2 3 true 100
           0 0 9 Sample.T_STRING 4 5 6 false 30
           Sample.boot one_object two_objects 4104 4272).
  - reflexivity.
  - exact one_object_allocated.
  - exact two_objects_allocated.
  - left. vm_compute. discriminate.
Defined.

Lemma new_obj_round_monotone_idempotent_at_41_600 :
  41 ≤ 600 ∧ 600 ≤ 640 ∧
  let round := new_obj_round size_pool_sizes_init 0 5 in
  41 ≤ round 41 ∧ round 41 ≤ round 600 ∧ round (round 41) = round 41.
Proof.
  split; [lia|]. split; [lia|].
  apply (new_obj_round_monotone_idempotent 41 600); lia.
Defined.

Lemma new_obj_round_waste_bound_at_161 :
  161 ≤ 640 ∧
  new_obj_round size_pool_sizes_init 0 5 161 ≤ Z.max 40 (2 * 161 - 2) ∧
  (161 ≤ 40 → new_obj_round size_pool_sizes_init 0 5 161 = 40) ∧
  new_obj_round size_pool_sizes_init 0 5 161 mod MMTK_MIN_OBJ_ALIGN = 0.
Proof.
  split; [lia|]. apply (new_obj_round_waste_bound 161). lia.
Defined.

Lemma size_pool_id_indexes_committed_class_at_100 :
  table_ok one_object ∧ 100 ≤ 640 ∧
  let c := new_obj_round (size_pool_sizes one_object) 0 5 100 in
  ∃ i : nat,
    rb_gc_impl_size_pool_id_for_size 0 100 one_object = Done (Z.of_nat i) one_object ∧
    (i < 5)%nat ∧
    size_pool_sizes one_object !! i = Some c ∧
    rb_gc_impl_size_pool_id_for_size 0 c one_object = Done (Z.of_nat i) one_object.
Proof.
  split; [reflexivity|]. split; [lia|].
  apply (size_pool_id_indexes_committed_class 0 100 one_object); [reflexivity|lia].
Defined.

Lemma size_pool_id_least_and_monotone_at_81_320 :
  table_ok one_object ∧ 81 ≤ 320 ∧ 320 ≤ 640 ∧
  ∃ i j : nat,
    rb_gc_impl_size_pool_id_for_size 0 81 one_object = Done (Z.of_nat i) one_object ∧
    rb_gc_impl_size_pool_id_for_size 0 320 one_object = Done (Z.of_nat j) one_object ∧
    (i ≤ j < 5)%nat ∧
    (∃ e, size_pool_sizes one_object !! i = Some e ∧ 81 ≤ e) ∧
    (∀ (k : nat) (e : Z),
       (k < i)%nat → size_pool_sizes one_object !! k = Some e → e < 81).
Proof.
  split; [reflexivity|]. split; [lia|]. split; [lia|].
  apply (size_pool_id_least_and_monotone 0 81 320 one_object);
    [reflexivity|lia|lia].
Defined.

Lemma registry_append_only_outside_drain_at_alloc :
  is_drain (Call_new_obj 0 0 9 Sample.T_STRING 4 5 6 false 30) = false ∧
  run (Call_new_obj 0 0 9 Sample.T_STRING 4 5 6 false 30) one_object
    = Done (RValue 4272) two_objects ∧
  obj_free_calls two_objects = obj_free_calls one_object ∧
  ∃ added : list VALUE,
    obj_free_candidates two_objects = obj_free_candidates one_object ++ added ∧
    (length added ≤ 1)%nat.
Proof.
  assert (run (Call_new_obj 0 0 9 Sample.T_STRING 4 5 6 false 30) one_object
          = Done (RValue 4272) two_objects) as Hrun.
  { unfold run, returning, bind. rewrite two_objects_allocated. reflexivity. }
  split; [reflexivity|]. split; [exact Hrun|].
  apply (registry_append_only_outside_drain
           (Call_new_obj 0 0 9 Sample.T_STRING 4 5 6 false 30)
           one_object two_objects (RValue 4272)); [reflexivity|exact Hrun].
Defined.

Lemma allocate_then_drain_at_boot :
  obj_free_candidates Counting.boot = [] ∧ 100 ≤ 640 ∧
  ∃ obj s1 s2,
    rb_gc_impl_new_obj 0 0 7 Sample.T_DATA 1 2 3 true 100 Counting.boot
      = Done obj s1 ∧
    rb_gc_impl_shutdown_call_finalizer 0 s1 = Done tt s2 ∧
    obj_free_candidates s2 = [] ∧
    obj_free_calls s2 =
      obj_free_calls Counting.boot ++
        (if rb_gc_shutdown_call_finalizer_p (world s1) (heap s1) obj
         then [obj] else []) ∧
    size_pool_sizes s2 = size_pool_sizes Counting.boot ∧
    (world s2, heap s2) =
      if rb_gc_shutdown_call_finalizer_p (world s1) (heap s1) obj
      then rb_gc_obj_free (world s1) (heap s1) obj
      else (world s1, heap s1).
Proof.
  split; [reflexivity|]. split; [lia|].
  apply (allocate_then_drain 0 0 7 Sample.T_DATA 1 2 3 true 100 0 Counting.boot);
    [reflexivity|lia].
Defined.

Lemma second_drain_sees_only_new_objects_at_boot :
  let s1 := after (rb_gc_impl_shutdown_call_finalizer 0) one_object in
  let s2 := after (rb_gc_impl_new_obj 0 0 8 Sample.T_FILE 4 5 6 true 200) s1 in
  let s3 := after (rb_gc_impl_shutdown_call_finalizer 0) s2 in
  obj_free_calls s1 = [4104] ∧
  obj_free_candidates s3 = [] ∧
  obj_free_calls s3 =
    obj_free_calls s1 ++
      if rb_gc_shutdown_call_finalizer_p (world s2) (heap s2) 4272
      then [4272] else [].
Proof.
  intros s1 s2 s3. split; [vm_compute; reflexivity|].
  apply (second_drain_sees_only_new_objects 0 0 0 0 8 Sample.T_FILE 4 5 6 true 200
           one_object s1 s2 s3 4272); vm_compute; reflexivity.
Defined.

Lemma counting_finalizer_p_stable : @finalizer_p_stable Counting.collaborators.
Proof. intros w h x y. reflexivity. Defined.

Lemma drain_frees_eligible_candidates_in_order_at_three_allocations :
  @finalizer_p_stable Counting.collaborators ∧
  obj_free_candidates Counting.three_allocations = [4104; 4320] ∧
  let eligible :=
    List.filter
      (rb_gc_shutdown_call_finalizer_p
         (world Counting.three_allocations) (heap Counting.three_allocations))
      (obj_free_candidates Counting.three_allocations) in
  ∃ s1,
    rb_gc_impl_shutdown_call_finalizer 0 Counting.three_allocations = Done tt s1 ∧
    obj_free_candidates s1 = [] ∧
    obj_free_calls s1 = obj_free_calls Counting.three_allocations ++ eligible ∧
    (world s1, heap s1) =
      free_each (world Counting.three_allocations)
        (heap Counting.three_allocations) eligible ∧
    size_pool_sizes s1 = size_pool_sizes Counting.three_allocations.
Proof.
  split; [exact counting_finalizer_p_stable|].
  split; [vm_compute; reflexivity|].
  apply (drain_frees_eligible_candidates_in_order 0 Counting.three_allocations).
  exact counting_finalizer_p_stable.
Defined.

(** The drain at work on collaborators whose cleanup leaves a trace: two of
    three allocated objects are registered and both are freed, in order;
    an object registered twice is freed once when the first cleanup makes
    it ineligible. *)
Example counting_drain :
  let s1 := after (rb_gc_impl_shutdown_call_finalizer 0) Counting.three_allocations in
  obj_free_calls s1 = [4104; 4320] ∧
  world s1 = (4640, 2) ∧
  heap s1 = heap Counting.three_allocations ∧
  obj_free_candidates s1 = [].
Proof. vm_compute. repeat split. Qed.

Example retiring_drain_registered_twice :
  rb_gc_impl_shutdown_call_finalizer 0 Counting.registered_twice
  = Done tt (@GcState Counting.retiring size_pool_sizes_init
               {[ 4104 := 0 ]} [] [4104] (4152, 1)).
Proof. vm_compute. reflexivity. Qed.

Lemma drain_without_eligible_candidates_at_stale :
  (∀ x, x ∈ obj_free_candidates stale_candidate →
        rb_gc_shutdown_call_finalizer_p
          (world stale_candidate) (heap stale_candidate) x = false) ∧
  rb_gc_impl_shutdown_call_finalizer 0 stale_candidate
    = Done tt (registry_taken stale_candidate).
Proof.
  assert (∀ x, x ∈ obj_free_candidates stale_candidate →
               rb_gc_shutdown_call_finalizer_p
                 (world stale_candidate) (heap stale_candidate) x = false) as Hnone.
  { intros x _. cbn. unfold Sample.needs_cleanup. rewrite lookup_empty.
    reflexivity. }
  split; [exact Hnone|].
  apply (drain_without_eligible_candidates 0 stale_candidate). exact Hnone.
Defined.
